(** * Probability Lab: the fit-and-score engine and its diagnostics

    A shallow embedding of [prob_lab]: the maximum-likelihood wrapper
    ([distributions/scipy_wrappers.py]), the extreme-value fitters
    ([distributions/extreme_value.py]), the multi-model runner
    ([fitting/mle.py]), the registry ([registry.py]) and the numeric series
    behind the two diagnostic plots ([visualize/plot.py]).

    Samples are lists of binary64 values (Rocq's primitive [float]); Python
    integers are [Z]; a raised exception is a value of the [result] type.
    What the code obtains from SciPy and NumPy with implementation-defined
    numerics (estimators, densities, [np.log], [np.sum], [np.linspace],
    [np.quantile]) is a parameter of the development, bundled in [NumLib];
    what is fixed by its contract ([np.isfinite], [np.sort], the [max] and
    [min] reductions, [np.cumsum], [np.arange]) is defined here. *)

From Stdlib Require Import ZArith List String Floats QArith Bool Lia.
From Stdlib Require Import Sorting.Sorted Sorting.Permutation.
From stdpp Require Import base gmap strings.
Import ListNotations.

Local Open Scope Z_scope.

(** ** Python values and exceptions *)

(** An exception: its class and its message. *)
Record exception := Exc { exc_class : string; exc_msg : string }.

Definition AttributeError (msg : string) : exception := Exc "AttributeError" msg.
Definition KeyError (msg : string) : exception := Exc "KeyError" msg.
Definition ValueError (msg : string) : exception := Exc "ValueError" msg.
Definition ZeroDivisionError (msg : string) : exception := Exc "ZeroDivisionError" msg.

(** A computation either returns a value or raises. *)
Inductive result (A : Type) : Type :=
| Return (a : A)
| Raise (e : exception).
Arguments Return {A} a.
Arguments Raise {A} e.

Definition bind {A B : Type} (m : result A) (k : A -> result B) : result B :=
  match m with
  | Return a => k a
  | Raise e => Raise e
  end.

Notation "'let*' x ':=' m 'in' k" := (bind m (fun x => k))
  (at level 10, x name, m at level 100, k at level 200).

(** A list comprehension whose body may raise: left to right, the first
    exception wins. *)
Fixpoint comprehension {A B : Type} (f : A -> result B) (l : list A) : result (list B) :=
  match l with
  | [] => Return []
  | a :: l' =>
      let* b := f a in
      let* bs := comprehension f l' in
      Return (b :: bs)
  end.

(** [len(x)]. *)
Definition len {A : Type} (x : list A) : Z := Z.of_nat (length x).

(** [range(k)]. *)
Definition range (k : Z) : list Z := List.map Z.of_nat (seq 0 (Z.to_nat k)).

(** [x[lo:hi]] for [0 <= lo]: the slice is clipped to the array. *)
Definition slice {A : Type} (x : list A) (lo hi : Z) : list A :=
  firstn (Z.to_nat (hi - lo)) (skipn (Z.to_nat lo) x).

(** The binary64 nearest to a Python integer (exact below [2^53]). *)
Definition float_of_int (z : Z) : float :=
  if z <? 0 then (- of_uint63 (Uint63.of_Z (- z)))%float
  else of_uint63 (Uint63.of_Z z).

(** [int(np.ceil(a / b))] for Python integers [a] and [b <> 0]. The quotient
    [a / b] is a binary64; for an array length [a] (below [2^53]) rounding
    cannot carry it across an integer, so the ceiling is that of the exact
    ratio. *)
Definition int_ceil_div (a b : Z) : Z := - ((- a) / b).

(** [if s:] on an [Optional[str]]. *)
Definition truthy (s : option string) : option string :=
  match s with
  | Some EmptyString => None
  | other => other
  end.

(** ** NumPy operations fixed by their contract *)

Definition np_isfinite (v : float) : bool := is_finite v.

(** One step of the [maximum] and [minimum] reductions: a NaN, once met,
    stays. *)
Definition np_maximum (acc v : float) : float :=
  if (v <=? acc)%float || is_nan acc then acc else v.
Definition np_minimum (acc v : float) : float :=
  if (acc <=? v)%float || is_nan acc then acc else v.

(** [x.max()] and [x.min()]: an empty array has no maximum. *)
Definition ndarray_max (x : list float) : result float :=
  match x with
  | [] => Raise (ValueError
            "zero-size array to reduction operation maximum which has no identity")
  | a :: l => Return (fold_left np_maximum l a)
  end.
Definition ndarray_min (x : list float) : result float :=
  match x with
  | [] => Raise (ValueError
            "zero-size array to reduction operation minimum which has no identity")
  | a :: l => Return (fold_left np_minimum l a)
  end.

(** NumPy's order for sorting: ascending, NaN last. *)
Definition npy_lt (a b : float) : bool :=
  (a <? b)%float || (is_nan b && negb (is_nan a)).

Fixpoint sort_insert (a : float) (l : list float) : list float :=
  match l with
  | [] => [a]
  | b :: l' => if npy_lt a b then a :: l else b :: sort_insert a l'
  end.

(** [np.sort(x)]: the ascending rearrangement, here by insertion. *)
Definition np_sort (x : list float) : list float := fold_right sort_insert [] x.

(** [np.cumsum(x)]: running sums, left to right. *)
Fixpoint cumsum_from (acc : float) (l : list float) : list float :=
  match l with
  | [] => []
  | a :: l' => let s := (acc + a)%float in s :: cumsum_from s l'
  end.
Definition np_cumsum (x : list float) : list float :=
  match x with
  | [] => []
  | a :: l => a :: cumsum_from a l
  end.

(** [np.arange(1, k + 1)]. *)
Definition np_arange1 (k : Z) : list Z := List.map (fun i => i + 1) (range k).

(** ** The numeric library the code calls *)

Module rv.
(** A [scipy.stats] continuous family, as far as the code uses one.
    [fit data floc] is [dist.fit(data)] or [dist.fit(data, floc=v)] and
    yields the tuple [(shape..., loc, scale)]; the three functions take a
    point, the shape parameters, [loc] and [scale]. *)
Record t := mk {
  fit : list float -> option float -> result (list float);
  logpdf : float -> list float -> float -> float -> float;
  pdf : float -> list float -> float -> float -> float;
  ppf : float -> list float -> float -> float -> float
}.
End rv.

Record NumLib := {
  (** [getattr(stats, name)]: [None] when the module has no such attribute. *)
  stats : string -> option rv.t;
  np_log : float -> float;
  np_sum : list float -> float;
  np_linspace : float -> float -> Z -> list float;
  np_quantile : list float -> list float -> result (list float)
}.

(** ** [distributions/base.py] *)

Module FitResult.
Record t := mk {
  name : string;
  params : list float;
  loc : float;
  scale : float;
  aic : float;
  bic : float;
  loglik : float;
  n : Z
}.
End FitResult.

Section Engine.
Context (L : NumLib).

(** Attribute access on the [stats] module. *)
Definition stats_getattr (dist_name : string) : result rv.t :=
  match stats L dist_name with
  | Some d => Return d
  | None => Raise (AttributeError
              ("module 'scipy.stats' has no attribute '" ++ dist_name ++ "'")%string)
  end.

(** ** [distributions/scipy_wrappers.py] *)

Record ScipyDistribution := { name : string; dist : rv.t }.

Definition ScipyDistribution_init (dist_name : string) : result ScipyDistribution :=
  let* d := stats_getattr dist_name in
  Return {| name := dist_name; dist := d |}.

(** [*arg, loc, scale = params]. *)
Definition unpack_star (params : list float) : result (list float * float * float) :=
  match rev params with
  | scale :: loc :: rarg => Return (rev rarg, loc, scale)
  | _ => Raise (ValueError "not enough values to unpack (expected at least 2)")
  end.

Definition ScipyDistribution_fit (self : ScipyDistribution) (x : list float)
  : result FitResult.t :=
  let* params := rv.fit (dist self) x None in
  let* unpacked := unpack_star params in
  let '(arg, loc, scale) := unpacked in
  let loglik := np_sum L (List.map (fun v => rv.logpdf (dist self) v arg loc scale) x) in
  let n := len x in
  let k := len arg + 2 in
  let aic := (float_of_int (2 * k) - float_of_int 2 * loglik)%float in
  let bic := (float_of_int k * np_log L (float_of_int n) - float_of_int 2 * loglik)%float in
  Return (FitResult.mk (name self) arg loc scale aic bic loglik n).

(** The parameters the source then stores on [model] are not read again. *)
Definition fit_scipy (dist_name : string) (x : list float) : result FitResult.t :=
  let* model := ScipyDistribution_init dist_name in
  let* fr := ScipyDistribution_fit model x in
  Return fr.

(** ** [distributions/extreme_value.py] *)

(** [c, loc, scale = ...]. *)
Definition unpack3 (params : list float) : result (float * float * float) :=
  match params with
  | [c; loc; scale] => Return (c, loc, scale)
  | _ => Raise (ValueError "wrong number of values to unpack (expected 3)")
  end.

(** The [i]-th block, [x[i*block_size:(i+1)*block_size]]. *)
Definition block (x : list float) (block_size i : Z) : list float :=
  slice x (i * block_size) ((i + 1) * block_size).

(** The array of per-block maxima. *)
Definition block_maxima (x : list float) (block_size : Z) : result (list float) :=
  if block_size =? 0 then Raise (ZeroDivisionError "division by zero")
  else
    let blocks := int_ceil_div (len x) block_size in
    comprehension (fun i => ndarray_max (block x block_size i)) (range blocks).

Definition fit_block_maxima (x : list float) (block_size : Z) : result FitResult.t :=
  let* maxima := block_maxima x block_size in
  let* genextreme := stats_getattr "genextreme" in
  let* params := rv.fit genextreme maxima None in
  let* unpacked := unpack3 params in
  let '(c, loc, scale) := unpacked in
  let loglik := np_sum L (List.map (fun v => rv.logpdf genextreme v [c] loc scale) maxima) in
  let n := len maxima in
  let k := 3 in
  let aic := (float_of_int (2 * k) - float_of_int 2 * loglik)%float in
  let bic := (float_of_int k * np_log L (float_of_int n) - float_of_int 2 * loglik)%float in
  Return (FitResult.mk "genextreme(block-maxima)" [c] loc scale aic bic loglik n).

(** [x[x>threshold] - threshold]. *)
Definition exceedances (x : list float) (threshold : float) : list float :=
  List.map (fun v => (v - threshold)%float)
           (List.filter (fun v => (threshold <? v)%float) x).

Definition fit_gpd_threshold (x : list float) (threshold : float) : result FitResult.t :=
  let exceed := exceedances x threshold in
  let* genpareto := stats_getattr "genpareto" in
  let* params := rv.fit genpareto exceed (Some 0%float) in
  let* unpacked := unpack3 params in
  let '(c, loc, scale) := unpacked in
  let loglik := np_sum L (List.map (fun v => rv.logpdf genpareto v [c] loc scale) exceed) in
  let n := len exceed in
  let k := 2 + 1 in
  let aic := (float_of_int (2 * 2) - float_of_int 2 * loglik)%float in
  let bic := (float_of_int 2 * np_log L (float_of_int n) - float_of_int 2 * loglik)%float in
  Return (FitResult.mk "genpareto(excess over threshold)" [c] 0%float scale aic bic loglik n).

(** ** [fitting/mle.py] *)

(** The dictionary [results]: a name is bound to the fit, or to the
    exception the fit raised (whatever a fit raises is an [Exception]). *)
Definition try_many (x : list float) (dist_names : list string)
  : gmap string (result FitResult.t) :=
  fold_left
    (fun results name =>
       match fit_scipy name x with
       | Return fr => <[name := Return fr]> results
       | Raise e => <[name := Raise e]> results
       end)
    dist_names ∅.

Definition default_dist_names : list string :=
  ["expon"; "weibull_min"; "lognorm"; "gamma"; "gompertz"]%string.
End Engine.

(** ** [registry.py] *)

Section Registry.
Context {Callable : Type}.
(** [repr] of a list of strings, as an f-string renders [list(self._items)]. *)
Context (repr : list string -> string).

(** The dictionary [_items], in insertion order. *)
Record Registry := { _items : list (string * Callable) }.

Definition Registry_init : Registry := {| _items := [] |}.

(** [d[name] = fn]: an existing key keeps its place. *)
Fixpoint dict_set (d : list (string * Callable)) (name : string) (fn : Callable)
  : list (string * Callable) :=
  match d with
  | [] => [(name, fn)]
  | (k, v) :: d' =>
      if String.eqb k name then (k, fn) :: d' else (k, v) :: dict_set d' name fn
  end.

Fixpoint dict_get (d : list (string * Callable)) (name : string) : option Callable :=
  match d with
  | [] => None
  | (k, v) :: d' => if String.eqb k name then Some v else dict_get d' name
  end.

(** [list(d)]. *)
Definition dict_keys (d : list (string * Callable)) : list string := List.map fst d.

(** [name in d]. *)
Definition dict_contains (d : list (string * Callable)) (name : string) : bool :=
  existsb (String.eqb name) (dict_keys d).

(** [register(name)(fn)]: the decorator stores [fn] and hands it back. *)
Definition register (self : Registry) (name : string) (fn : Callable)
  : Registry * Callable :=
  ({| _items := dict_set (_items self) name fn |}, fn).

Definition get (self : Registry) (name : string) : result Callable :=
  if negb (dict_contains (_items self) name) then
    Raise (KeyError (name ++ " not found in registry. Available: "
                          ++ repr (dict_keys (_items self)))%string)
  else
    match dict_get (_items self) name with
    | Some fn => Return fn
    | None => Raise (KeyError name)
    end.

Definition names (self : Registry) : list string := dict_keys (_items self).
End Registry.

(** ** [visualize/plot.py] *)

(** What a figure holds once the plotting calls are made. The ordinates of
    the step plot are the ratios [i / N] of two integers; they are kept exact
    here (binary64 rounds each to its nearest value, which keeps their order
    and sends [N / N] to [1.0]). *)
Inductive artist :=
| Step (xs : list float) (ys : list Q) (label : string)
| Line (xs ys : list float) (label : string) (linestyle : string)
| Scatter (xs ys : list float) (size : Z).

Record Figure := {
  artists : list artist;
  xlabel : string;
  ylabel : string;
  title : option string;
  savefig : option string
}.

(** The built-in [min] and [max] of two floats. *)
Definition py_min (a b : float) : float := if (b <? a)%float then b else a.
Definition py_max (a b : float) : float := if (a <? b)%float then b else a.

Section Plot.
Context (L : NumLib).

(** [np.arange(1, len(xs_sorted)+1)/len(xs_sorted)]. *)
Definition ecdf_ordinates (xs_sorted : list float) : list Q :=
  List.map (fun i => (inject_Z i / inject_Z (len xs_sorted))%Q)
           (np_arange1 (len xs_sorted)).

Definition pdf_ecdf_overlay (x : list float) (dist_name : string)
    (params : list float) (loc scale : float) (path title : option string)
  : result Figure :=
  let x := List.filter np_isfinite x in
  let* lo := ndarray_min x in
  let* hi := ndarray_max x in
  let xs := np_linspace L lo hi 400 in
  let xs_sorted := np_sort x in
  let ys := ecdf_ordinates xs_sorted in
  let* dist := stats_getattr L dist_name in
  let pdf := List.map (fun v => rv.pdf dist v params loc scale) xs in
  let total := np_sum L pdf in
  Return {| artists :=
              [ Step xs_sorted ys "ECDF";
                Line xs (List.map (fun c => (c / total)%float) (np_cumsum pdf))
                     (dist_name ++ " CDF (normalized)")%string "-" ];
            xlabel := "x";
            ylabel := "Probability";
            title := truthy title;
            savefig := truthy path |}.

Definition qq_plot (x : list float) (dist_name : string)
    (params : list float) (loc scale : float) (path title : option string)
  : result Figure :=
  let x := List.filter np_isfinite x in
  let* dist := stats_getattr L dist_name in
  let q := np_linspace L 0x1.47ae147ae147bp-7%float 0x1.fae147ae147aep-1%float 99 in
  let theor := List.map (fun p => rv.ppf dist p params loc scale) q in
  let* samp := np_quantile L x q in
  let* theor_min := ndarray_min theor in
  let* samp_min := ndarray_min samp in
  let* theor_max := ndarray_max theor in
  let* samp_max := ndarray_max samp in
  let lims := [py_min theor_min samp_min; py_max theor_max samp_max] in
  Return {| artists := [ Scatter theor samp 10; Line lims lims "" "--" ];
            xlabel := "Theoretical quantiles";
            ylabel := "Sample quantiles";
            title := truthy title;
            savefig := truthy path |}.

(** The step plot of a figure: its abscissae and ordinates, paired. *)
Definition ecdf_series (fig : Figure) : list (float * Q) :=
  match artists fig with
  | Step xs ys _ :: _ => combine xs ys
  | _ => []
  end.
End Plot.

(** ** A small numeric library to run the code against

    Closed-form stand-ins for what SciPy and NumPy provide, so that the
    functions above can be evaluated on concrete samples: the exponential
    family with its closed-form estimate, and the members of the two
    extreme-value families that have one (shape [0] of the generalized
    Pareto, shape [1] of the generalized extreme value). The logarithm and
    the exponential are series, good to about twelve digits. No general
    statement below depends on this module. *)
Module Demo.
Definition ln2 : float := 0x1.62e42fefa39efp-1.

(** [1 + t2/3 + t2^2/5 + ...], from the far end. *)
Fixpoint atanh_tail (fuel : nat) (j : Z) (t2 : float) : float :=
  match fuel with
  | O => 0
  | S fuel' => 1 / float_of_int (2 * j + 1) + t2 * atanh_tail fuel' (j + 1) t2
  end%float.

Definition log (v : float) : float :=
  if is_nan v then v
  else if (v <? 0)%float then nan
  else if (v =? 0)%float then neg_infinity
  else if (v =? infinity)%float then infinity
  else
    let '(m, e) := Z.frexp v in
    let '(m, e) := if (m <? 0x1.6a09e667f3bcdp-1)%float then ((2 * m)%float, e - 1) else (m, e) in
    let t := ((m - 1) / (m + 1))%float in
    (float_of_int e * ln2 + 2 * t * atanh_tail 24 0 (t * t))%float.

Fixpoint exp_taylor (fuel : nat) (j : Z) (y : float) : float :=
  match fuel with
  | O => 1
  | S fuel' => 1 + y / float_of_int j * exp_taylor fuel' (j + 1) y
  end%float.

Fixpoint square_n (k : nat) (v : float) : float :=
  match k with
  | O => v
  | S k' => square_n k' (v * v)%float
  end.

Definition exp (v : float) : float := square_n 10 (exp_taylor 14 1 (v / 1024)%float).

Definition sum (x : list float) : float := fold_left add x 0%float.

Definition mean (x : list float) : float := (sum x / float_of_int (len x))%float.

Definition linspace (start stop : float) (num : Z) : list float :=
  let step := ((stop - start) / float_of_int (num - 1))%float in
  List.map (fun i => (start + float_of_int i * step)%float) (range num).

(** The integer part of a non-negative binary64 below [2^53]. *)
Definition floor (h : float) : Z :=
  let '(m, e) := Z.frexp h in
  Z.shiftr (Uint63.to_Z (normfr_mantissa m)) (53 - e).

(** Quantiles by linear interpolation between order statistics. *)
Definition quantile (x q : list float) : result (list float) :=
  match np_sort x with
  | [] => Raise (Exc "IndexError" "index -1 is out of bounds for axis 0 with size 0")
  | first :: _ as sorted =>
      Return (List.map
        (fun p =>
           let h := (float_of_int (len sorted - 1) * p)%float in
           let i := Z.to_nat (floor h) in
           let a := nth i sorted first in
           let b := nth (S i) sorted a in
           (a + (h - float_of_int (Z.of_nat i)) * (b - a))%float)
        q)
  end.

Definition standardize (v loc scale : float) : float := ((v - loc) / scale)%float.

Definition expon : rv.t :=
  {| rv.fit := fun data floc =>
       let* lo := ndarray_min data in
       let loc := match floc with Some v => v | None => lo end in
       Return [loc; (mean data - loc)%float];
     rv.logpdf := fun v _ loc scale =>
       let z := standardize v loc scale in
       if (z <? 0)%float then neg_infinity else (- z - log scale)%float;
     rv.pdf := fun v _ loc scale =>
       let z := standardize v loc scale in
       if (z <? 0)%float then 0%float else (exp (- z) / scale)%float;
     rv.ppf := fun p _ loc scale => (loc - scale * log (1 - p))%float |}.

(** Shape [0]: the excesses are exponential. *)
Definition genpareto : rv.t :=
  {| rv.fit := fun data floc =>
       let loc := match floc with Some v => v | None => 0%float end in
       Return [0%float; loc; (mean data - loc)%float];
     rv.logpdf := rv.logpdf expon;
     rv.pdf := rv.pdf expon;
     rv.ppf := rv.ppf expon |}.

(** Shape [1]: an exponential reflected at the upper end point
    [loc + scale]. *)
Definition genextreme : rv.t :=
  {| rv.fit := fun data _ =>
       let* hi := ndarray_max data in
       let scale := (hi - mean data)%float in
       Return [1%float; (hi - scale)%float; scale];
     rv.logpdf := fun v _ loc scale =>
       let z := standardize v loc scale in
       if (1 <? z)%float then neg_infinity else (z - 1 - log scale)%float;
     rv.pdf := fun v _ loc scale =>
       let z := standardize v loc scale in
       if (1 <? z)%float then 0%float else (exp (z - 1) / scale)%float;
     rv.ppf := fun p _ loc scale => (loc + scale * (1 + log p))%float |}.

Definition namespace (dist_name : string) : option rv.t :=
  if String.eqb dist_name "expon" then Some expon
  else if String.eqb dist_name "genpareto" then Some genpareto
  else if String.eqb dist_name "genextreme" then Some genextreme
  else None.

Definition lib : NumLib :=
  {| stats := namespace;
     np_log := log;
     np_sum := sum;
     np_linspace := linspace;
     np_quantile := quantile |}.

(** [[1.0, 2.0, ..., k]]. *)
Definition one_to (k : Z) : list float := List.map float_of_int (np_arange1 k).

(** [repr] of a list of plain strings. *)
Definition repr (l : list string) : string :=
  ("[" ++ String.concat ", " (List.map (fun s => "'" ++ s ++ "'") l) ++ "]")%string.
End Demo.

(** ** Registries built by registration *)

(** The registry obtained from the empty one by a sequence of
    [register(name)(fn)] calls, in order. *)
Definition registered {Callable : Type} (calls : list (string * Callable))
  : @Registry Callable :=
  fold_left (fun self call => fst (register self (fst call) (snd call)))
            calls Registry_init.

(** ** [fit_demo.py] *)

(** [os.path.join(a, b)] for a relative [b]. *)
Definition os_path_join (a b : string) : string :=
  match a with
  | EmptyString => b
  | _ => if String.eqb (substring (String.length a - 1) 1 a) "/"
         then (a ++ b)%string
         else (a ++ "/" ++ b)%string
  end.

(** The body of [main] once the column is loaded: [x] is
    [df[column].dropna().to_numpy()]. What is printed is left out; the two
    figures are what the plotting calls produce and save. *)
Definition fit_demo_main (L : NumLib) (x : list float) (dist outdir : string)
  : result (FitResult.t * Figure * Figure) :=
  let* fr := fit_scipy L dist x in
  let* overlay :=
    pdf_ecdf_overlay L x dist (FitResult.params fr) (FitResult.loc fr)
      (FitResult.scale fr) (Some (os_path_join outdir "cdf_overlay.png"))
      (Some (dist ++ " CDF vs ECDF")%string) in
  let* qq :=
    qq_plot L x dist (FitResult.params fr) (FitResult.loc fr)
      (FitResult.scale fr) (Some (os_path_join outdir "qq.png"))
      (Some (dist ++ " QQ plot")%string) in
  Return (fr, overlay, qq).

(** ** [exp/run.py] *)

(** The experiment configuration, as far as [main] reads it after the
    series is loaded. *)
Module cfg.
Record fit_t := { mle : bool; dist : string }.
Record extreme_t := {
  enabled : bool;
  mode : string;
  block_size : Z;
  threshold : float
}.
Record viz_t := { cdf_overlay : bool; qq : bool }.
Record t := { fit : fit_t; extreme : extreme_t; viz : viz_t }.
End cfg.

(** A field value of a result record. *)
Inductive py_value :=
| VStr (s : string)
| VTuple (v : list float)
| VFloat (v : float)
| VInt (v : Z).

(** [fr.__dict__]: the fields of the dataclass, in declaration order. *)
Definition FitResult_dict (fr : FitResult.t) : list (string * py_value) :=
  [ ("name", VStr (FitResult.name fr));
    ("params", VTuple (FitResult.params fr));
    ("loc", VFloat (FitResult.loc fr));
    ("scale", VFloat (FitResult.scale fr));
    ("aic", VFloat (FitResult.aic fr));
    ("bic", VFloat (FitResult.bic fr));
    ("loglik", VFloat (FitResult.loglik fr));
    ("n", VInt (FitResult.n fr)) ]%string.

(** [k.endswith("_")]. *)
Definition endswith_underscore (k : string) : bool :=
  match k with
  | EmptyString => false
  | _ => String.eqb (substring (String.length k - 1) 1 k) "_"
  end.

(** The loop of [_clean] over a copy of the dictionary: every key that ends
    with an underscore is popped. *)
Definition clean_dict {V : Type} (d : list (string * V)) : list (string * V) :=
  List.filter (fun kv => negb (endswith_underscore (fst kv))) d.

(** [_clean(fr)] for a result record (which has a [__dict__]). *)
Definition _clean (fr : FitResult.t) : list (string * py_value) :=
  clean_dict (FitResult_dict fr).

(** [float(np.quantile(x, q))] for a scalar [q]: the one-point case of the
    vector form; [float] refuses an array that is not of size one. *)
Definition quantile_scalar (L : NumLib) (x : list float) (q : float) : result float :=
  let* v := np_quantile L x [q] in
  match v with
  | [thr_val] => Return thr_val
  | _ => Raise (Exc "TypeError" "only length-1 arrays can be converted to Python scalars")
  end.

(** The threshold [main] hands to the peaks-over-threshold fitter. *)
Definition resolve_threshold (L : NumLib) (x : list float) (thr : float) : result float :=
  if (0 <? thr)%float && (thr <? 1)%float then quantile_scalar L x thr
  else Return thr.

(** What a run leaves behind: the dictionary [results], the figures saved,
    and the summary handed to [json.dump]. *)
Record run_outcome := {
  results : gmap string FitResult.t;
  figures : list Figure;
  summary : gmap string (list (string * py_value))
}.

(** The extreme-value part of [main]: the entry of [results] it adds, if
    any. *)
Definition run_extreme (L : NumLib) (c : cfg.t) (x : list float)
  : result (option FitResult.t) :=
  if cfg.enabled (cfg.extreme c) then
    if String.eqb (cfg.mode (cfg.extreme c)) "block_maxima" then
      let* fr_ev := fit_block_maxima L x (cfg.block_size (cfg.extreme c)) in
      Return (Some fr_ev)
    else if String.eqb (cfg.mode (cfg.extreme c)) "peaks_over_threshold" then
      let* thr_val := resolve_threshold L x (cfg.threshold (cfg.extreme c)) in
      let* fr_ev := fit_gpd_threshold L x thr_val in
      Return (Some fr_ev)
    else Return None
  else Return None.

(** The body of [main] once the series [x] is loaded, with [outdir] the
    working directory. What is printed is left out. *)
Definition run_main (L : NumLib) (c : cfg.t) (x : list float) (outdir : string)
  : result run_outcome :=
  let results : gmap string FitResult.t := ∅ in
  let* results :=
    if cfg.mle (cfg.fit c) then
      let* fr := fit_scipy L (cfg.dist (cfg.fit c)) x in
      Return (<["mle"%string := fr]> results)
    else Return results in
  let* extreme := run_extreme L c x in
  let results :=
    match extreme with
    | Some fr_ev => <["extreme"%string := fr_ev]> results
    | None => results
    end in
  let* figs1 :=
    match (if cfg.cdf_overlay (cfg.viz c) then results !! "mle"%string else None) with
    | Some fr =>
        let* fig :=
          pdf_ecdf_overlay L x (cfg.dist (cfg.fit c)) (FitResult.params fr)
            (FitResult.loc fr) (FitResult.scale fr)
            (Some (os_path_join outdir "cdf_overlay.png"))
            (Some (cfg.dist (cfg.fit c) ++ " CDF vs ECDF")%string) in
        Return [fig]
    | None => Return []
    end in
  let* figs2 :=
    match (if cfg.qq (cfg.viz c) then results !! "mle"%string else None) with
    | Some fr =>
        let* fig :=
          qq_plot L x (cfg.dist (cfg.fit c)) (FitResult.params fr)
            (FitResult.loc fr) (FitResult.scale fr)
            (Some (os_path_join outdir "qq.png"))
            (Some (cfg.dist (cfg.fit c) ++ " QQ Plot")%string) in
        Return [fig]
    | None => Return []
    end in
  Return {| results := results;
            figures := figs1 ++ figs2;
            summary := _clean <$> results |}.

(** ** Sample quantiles over the whole sample

    [Demo.quantile] interpolates between the order statistics that follow
    the least one; the runs of [exp/run.py] below are evaluated with the
    quantile over all of them, the library being otherwise the same. *)
Module DemoRun.
Definition quantile (x q : list float) : result (list float) :=
  match np_sort x with
  | [] => Raise (Exc "IndexError" "index -1 is out of bounds for axis 0 with size 0")
  | first :: rest =>
      Return (List.map
        (fun p =>
           let h := (float_of_int (len (first :: rest) - 1) * p)%float in
           let i := Z.to_nat (Demo.floor h) in
           let a := nth i (first :: rest) first in
           let b := nth (S i) (first :: rest) a in
           (a + (h - float_of_int (Z.of_nat i)) * (b - a))%float)
        q)
  end.

Definition lib : NumLib :=
  {| stats := Demo.namespace;
     np_log := Demo.log;
     np_sum := Demo.sum;
     np_linspace := Demo.linspace;
     np_quantile := quantile |}.
End DemoRun.

(** ** [survival/lifelines_adapter.py] *)

Section Survival.
(** What a fitted lifelines model is, is left open. *)
Context {Fitted : Type}.
(** [F().fit(durations, event_observed, label=...)] for the fitter class
    named. *)
Context (lifelines_fit :
           string -> list float -> list float -> option string -> result Fitted).

(** A data frame: its columns, by name. *)
Definition DataFrame : Type := list (string * list float).

(** [df[col]]. *)
Definition df_getitem (df : DataFrame) (col : string) : result (list float) :=
  match dict_get df col with
  | Some column => Return column
  | None => Raise (KeyError col)
  end.

Definition km_curve (df : DataFrame) (time_col event_col : string) : result Fitted :=
  let* durations := df_getitem df time_col in
  let* observed := df_getitem df event_col in
  lifelines_fit "KaplanMeierFitter" durations observed None.

(** The three parametric families tried, with the class fitted for each. *)
Definition parametric_families : list (string * string) :=
  [ ("Weibull", "WeibullFitter");
    ("LogNormal", "LogNormalFitter");
    ("LogLogistic", "LogLogisticFitter") ]%string.

(** One turn of the loop: the attempt for one family. *)
Definition parametric_attempt (df : DataFrame) (time_col event_col : string)
    (family : string * string) : result Fitted :=
  let* durations := df_getitem df time_col in
  let* observed := df_getitem df event_col in
  lifelines_fit (snd family) durations observed (Some (fst family)).

Definition parametric_fits (df : DataFrame) (time_col event_col : string)
  : gmap string (result Fitted) :=
  fold_left
    (fun fits family =>
       match parametric_attempt df time_col event_col family with
       | Return m => <[fst family := Return m]> fits
       | Raise e => <[fst family := Raise e]> fits
       end)
    parametric_families ∅.
End Survival.


(** ** The statements the properties are phrased with *)

(** The two information criteria of a result [r] for a parameter count [k]:
    [aic = 2k - 2 loglik] and [bic = k ln(n) - 2 loglik], in the arithmetic
    of the code. *)
Definition information_criteria (L : NumLib) (k : Z) (r : FitResult.t) : Prop :=
  FitResult.aic r
    = (float_of_int (2 * k) - float_of_int 2 * FitResult.loglik r)%float /\
  FitResult.bic r
    = (float_of_int k * np_log L (float_of_int (FitResult.n r))
       - float_of_int 2 * FitResult.loglik r)%float.

(** The summed log-density of the points [x] under a family and its
    parameters. *)
Definition summed_logpdf (L : NumLib) (d : rv.t) (x arg : list float) (loc scale : float)
  : float :=
  np_sum L (List.map (fun v => rv.logpdf d v arg loc scale) x).

(** How many sample values lie strictly above the threshold. *)
Definition count_above (x : list float) (threshold : float) : Z :=
  len (List.filter (fun v => (threshold <? v)%float) x).


(** No entry is a NaN. *)
Definition no_nan (x : list float) : Prop :=
  List.Forall (fun v => is_nan v = false) x.


(** * Properties *)

(** ** The [result] monad *)

Lemma bind_Return {A B : Type} (m : result A) (k : A -> result B) (b : B) :
  bind m k = Return b <-> exists a, m = Return a /\ k a = Return b.
Proof.
  destruct m as [a | e]; simpl; split.
  - intros H. exists a. split; [reflexivity | exact H].
  - intros (a' & Ha & Hk). injection Ha as ->. exact Hk.
  - discriminate.
  - intros (a' & Ha & _). discriminate.
Qed.

Lemma bind_Raise {A B : Type} (m : result A) (k : A -> result B) (e : exception) :
  m = Raise e -> bind m k = Raise e.
Proof. intros ->. reflexivity. Qed.

Lemma stats_getattr_Return (L : NumLib) (dist_name : string) (d : rv.t) :
  stats_getattr L dist_name = Return d <-> stats L dist_name = Some d.
Proof.
  unfold stats_getattr. destruct (stats L dist_name) as [d' |]; split;
    intros H; try discriminate; injection H as ->; reflexivity.
Qed.

Lemma unpack_star_Return (params arg : list float) (loc scale : float) :
  unpack_star params = Return (arg, loc, scale) <-> params = arg ++ [loc; scale].
Proof.
  unfold unpack_star. split.
  - intros H. rewrite <- (rev_involutive params).
    destruct (rev params) as [| s [| l rarg]]; try discriminate.
    injection H as <- <- <-. simpl. rewrite <- app_assoc. reflexivity.
  - intros ->. rewrite rev_app_distr. simpl. rewrite rev_involutive. reflexivity.
Qed.

Lemma unpack3_Return (params : list float) (c loc scale : float) :
  unpack3 params = Return (c, loc, scale) <-> params = [c; loc; scale].
Proof.
  unfold unpack3. split.
  - destruct params as [| a [| b [| d [| ? ?]]]]; try discriminate.
    intros H. injection H as -> -> ->. reflexivity.
  - intros ->. reflexivity.
Qed.

(** ** What each fitter returns *)

(** The maximum-likelihood wrapper returns exactly when the name resolves
    and the estimator yields a tuple of at least two values; the record is
    then built from that tuple with no further test. *)
Lemma fit_scipy_Return (L : NumLib) (dist_name : string) (x : list float)
    (r : FitResult.t) :
  fit_scipy L dist_name x = Return r <->
  exists d arg loc scale,
    stats L dist_name = Some d /\
    rv.fit d x None = Return (arg ++ [loc; scale]) /\
    r = FitResult.mk dist_name arg loc scale
          (float_of_int (2 * (len arg + 2))
           - float_of_int 2 * summed_logpdf L d x arg loc scale)%float
          (float_of_int (len arg + 2) * np_log L (float_of_int (len x))
           - float_of_int 2 * summed_logpdf L d x arg loc scale)%float
          (summed_logpdf L d x arg loc scale) (len x).
Proof.
  unfold fit_scipy, ScipyDistribution_init, ScipyDistribution_fit. split.
  - intros H.
    apply bind_Return in H as (model & Hmodel & H).
    apply bind_Return in Hmodel as (d & Hd & Hmodel).
    injection Hmodel as <-. simpl in H.
    apply bind_Return in H as (fr & H & Hfr). injection Hfr as ->.
    apply bind_Return in H as (params & Hfit & H).
    apply bind_Return in H as ([[arg loc] scale] & Hun & H).
    injection H as <-.
    apply stats_getattr_Return in Hd. apply unpack_star_Return in Hun. subst params.
    exists d, arg, loc, scale. repeat split; assumption.
  - intros (d & arg & loc & scale & Hd & Hfit & ->).
    apply stats_getattr_Return in Hd. rewrite Hd. simpl. rewrite Hfit. simpl.
    rewrite (proj2 (unpack_star_Return _ arg loc scale) eq_refl). reflexivity.
Qed.

Lemma fit_block_maxima_Return (L : NumLib) (x : list float) (block_size : Z)
    (r : FitResult.t) :
  fit_block_maxima L x block_size = Return r <->
  exists maxima g c loc scale,
    block_maxima x block_size = Return maxima /\
    stats L "genextreme" = Some g /\
    rv.fit g maxima None = Return [c; loc; scale] /\
    r = FitResult.mk "genextreme(block-maxima)" [c] loc scale
          (float_of_int (2 * 3)
           - float_of_int 2 * summed_logpdf L g maxima [c] loc scale)%float
          (float_of_int 3 * np_log L (float_of_int (len maxima))
           - float_of_int 2 * summed_logpdf L g maxima [c] loc scale)%float
          (summed_logpdf L g maxima [c] loc scale) (len maxima).
Proof.
  unfold fit_block_maxima. split.
  - intros H.
    apply bind_Return in H as (maxima & Hmax & H).
    apply bind_Return in H as (g & Hg & H).
    apply bind_Return in H as (params & Hfit & H).
    apply bind_Return in H as ([[c loc] scale] & Hun & H).
    injection H as <-.
    apply stats_getattr_Return in Hg. apply unpack3_Return in Hun. subst params.
    exists maxima, g, c, loc, scale. repeat split; assumption.
  - intros (maxima & g & c & loc & scale & Hmax & Hg & Hfit & ->).
    apply stats_getattr_Return in Hg. rewrite Hmax. simpl. rewrite Hg. simpl.
    rewrite Hfit. reflexivity.
Qed.

Lemma fit_gpd_threshold_Return (L : NumLib) (x : list float) (threshold : float)
    (r : FitResult.t) :
  fit_gpd_threshold L x threshold = Return r <->
  exists g c loc scale,
    stats L "genpareto" = Some g /\
    rv.fit g (exceedances x threshold) (Some 0%float) = Return [c; loc; scale] /\
    r = FitResult.mk "genpareto(excess over threshold)" [c] 0%float scale
          (float_of_int (2 * 2)
           - float_of_int 2
             * summed_logpdf L g (exceedances x threshold) [c] loc scale)%float
          (float_of_int 2 * np_log L (float_of_int (len (exceedances x threshold)))
           - float_of_int 2
             * summed_logpdf L g (exceedances x threshold) [c] loc scale)%float
          (summed_logpdf L g (exceedances x threshold) [c] loc scale)
          (len (exceedances x threshold)).
Proof.
  unfold fit_gpd_threshold. split.
  - intros H.
    apply bind_Return in H as (g & Hg & H).
    apply bind_Return in H as (params & Hfit & H).
    apply bind_Return in H as ([[c loc] scale] & Hun & H).
    injection H as <-.
    apply stats_getattr_Return in Hg. apply unpack3_Return in Hun. subst params.
    exists g, c, loc, scale. repeat split; assumption.
  - intros (g & c & loc & scale & Hg & Hfit & ->).
    apply stats_getattr_Return in Hg. rewrite Hg. simpl. rewrite Hfit. reflexivity.
Qed.

Lemma len_exceedances (x : list float) (threshold : float) :
  len (exceedances x threshold) = count_above x threshold.
Proof. unfold exceedances, count_above, len. rewrite length_map. reflexivity. Qed.

(** C1. Every result a fitting operation returns has [aic = 2k - 2 loglik]
    and [bic = k ln(n) - 2 loglik], where [k] is the number of shape
    parameters plus two for the maximum-likelihood wrapper, three for the
    block-maxima fitter and two (in both formulas) for the
    peaks-over-threshold fitter. *)
Theorem aic_bic_consistency (L : NumLib) :
  (forall dist_name x r,
      fit_scipy L dist_name x = Return r ->
      information_criteria L (len (FitResult.params r) + 2) r) /\
  (forall x block_size r,
      fit_block_maxima L x block_size = Return r ->
      information_criteria L 3 r) /\
  (forall x threshold r,
      fit_gpd_threshold L x threshold = Return r ->
      information_criteria L 2 r).
Proof.
  split; [| split].
  - intros dist_name x r H.
    apply fit_scipy_Return in H as (d & arg & loc & scale & _ & _ & ->).
    split; reflexivity.
  - intros x block_size r H.
    apply fit_block_maxima_Return in H as (maxima & g & c & loc & scale & _ & _ & _ & ->).
    split; reflexivity.
  - intros x threshold r H.
    apply fit_gpd_threshold_Return in H as (g & c & loc & scale & _ & _ & ->).
    split; reflexivity.
Qed.

(** The three fitters do return on a concrete sample, with the criteria of
    C1. *)
Lemma aic_bic_consistency_witness :
  (exists r, fit_scipy Demo.lib "expon" [1; 2; 4]%float = Return r /\
             information_criteria Demo.lib (len (FitResult.params r) + 2) r) /\
  (exists r, fit_block_maxima Demo.lib (Demo.one_to 100) 10 = Return r /\
             information_criteria Demo.lib 3 r) /\
  (exists r, fit_gpd_threshold Demo.lib (Demo.one_to 100) 90 = Return r /\
             information_criteria Demo.lib 2 r).
Proof.
  pose proof (aic_bic_consistency Demo.lib) as (Hmle & Hgev & Hgpd).
  split; [| split]; eexists; split;
    try (vm_compute; reflexivity).
  - apply (Hmle "expon"%string [1; 2; 4]%float). vm_compute. reflexivity.
  - apply (Hgev (Demo.one_to 100) 10). vm_compute. reflexivity.
  - apply (Hgpd (Demo.one_to 100) 90%float). vm_compute. reflexivity.
Defined.

(** ** Peaks over threshold *)

Lemma exceedances_nonempty (x : list float) (threshold : float) :
  (exists v, In v x /\ (threshold <? v)%float = true) ->
  0 < count_above x threshold.
Proof.
  intros (v & Hin & Hv). unfold count_above, len.
  assert (Hf : In v (List.filter (fun v => (threshold <? v)%float) x))
    by (apply filter_In; split; assumption).
  destruct (List.filter _ x); [destruct Hf | simpl; lia].
Qed.

Lemma exceedances_empty (x : list float) (threshold : float) :
  (forall v, In v x -> (threshold <? v)%float = false) ->
  exceedances x threshold = [].
Proof.
  intros H. unfold exceedances.
  induction x as [| a x IH]; [reflexivity |]. simpl.
  rewrite (H a (or_introl eq_refl)). apply IH.
  intros v Hv. apply H. right. exact Hv.
Qed.

(** C3. When some sample value lies strictly above the threshold, the
    peaks-over-threshold fitter hands the exceedances (those values, each
    less the threshold) to the generalized-Pareto estimator with the
    location fixed at [0.0] ([floc = 0.0]); what the estimator yields
    decides the outcome, and a returned result has [loc = 0.0] and [n] the
    number of values strictly above the threshold. *)
Theorem peaks_over_threshold_fit (L : NumLib) (g : rv.t) (x : list float)
    (threshold : float) :
  stats L "genpareto" = Some g ->
  (exists v, In v x /\ (threshold <? v)%float = true) ->
  let exceed :=
    List.map (fun v => (v - threshold)%float)
             (List.filter (fun v => (threshold <? v)%float) x) in
  match rv.fit g exceed (Some 0%float) with
  | Return [c; loc; scale] =>
      exists r,
        fit_gpd_threshold L x threshold = Return r /\
        FitResult.loc r = 0%float /\
        FitResult.n r = count_above x threshold /\
        0 < FitResult.n r /\
        FitResult.params r = [c] /\
        FitResult.scale r = scale /\
        FitResult.loglik r = summed_logpdf L g exceed [c] loc scale
  | Return _ => exists e, fit_gpd_threshold L x threshold = Raise e
  | Raise e => fit_gpd_threshold L x threshold = Raise e
  end.
Proof.
  intros Hg Hsome exceed.
  pose proof (exceedances_nonempty x threshold Hsome) as Hpos.
  fold (exceedances x threshold) in exceed.
  destruct (rv.fit g exceed (Some 0%float)) as [params | e] eqn:Hfit.
  - assert (Hshape : (exists c loc scale, params = [c; loc; scale]) \/
                     unpack3 params = Raise
                       (ValueError "wrong number of values to unpack (expected 3)")).
    { destruct params as [| a [| b [| c [| ? ?]]]]; try (right; reflexivity).
      left. exists a, b, c. reflexivity. }
    destruct Hshape as [(c & loc & scale & ->) | Hbad].
    + eexists. split.
      * apply fit_gpd_threshold_Return. exists g, c, loc, scale.
        split; [exact Hg | split; [exact Hfit | reflexivity]].
      * simpl. rewrite len_exceedances. repeat split; try reflexivity. exact Hpos.
    + assert (Hraise : exists e, fit_gpd_threshold L x threshold = Raise e).
      { eexists. unfold fit_gpd_threshold. apply stats_getattr_Return in Hg.
        rewrite Hg. simpl. fold exceed. rewrite Hfit. simpl. rewrite Hbad.
        reflexivity. }
      destruct params as [| a [| b [| c [| ? ?]]]]; try exact Hraise.
      discriminate Hbad.
  - unfold fit_gpd_threshold. apply stats_getattr_Return in Hg. rewrite Hg. simpl.
    fold exceed. rewrite Hfit. reflexivity.
Qed.

(** C3 on the sample [1, ..., 100] with threshold [90]: ten exceedances. *)
Lemma peaks_over_threshold_fit_witness :
  exists r,
    fit_gpd_threshold Demo.lib (Demo.one_to 100) 90%float = Return r /\
    FitResult.loc r = 0%float /\
    FitResult.n r = 10 /\
    FitResult.scale r = 5.5%float.
Proof.
  pose proof (peaks_over_threshold_fit Demo.lib Demo.genpareto (Demo.one_to 100)
                90%float eq_refl) as H.
  assert (Hsome : exists v, In v (Demo.one_to 100) /\ (90 <? v)%float = true).
  { exists 91%float. split; [| reflexivity].
    vm_compute. do 90 right. left. reflexivity. }
  specialize (H Hsome). cbv zeta in H.
  change (rv.fit Demo.genpareto
            (List.map (fun v => (v - 90)%float)
               (List.filter (fun v => (90 <? v)%float) (Demo.one_to 100)))
            (Some 0%float))
    with (Return (A := list float) [0%float; 0%float; 5.5%float]) in H.
  destruct H as (r & Hr & Hloc & Hn & _ & _ & Hscale & _).
  exists r. repeat split; assumption.
Defined.




(** ** Scale and log-likelihood *)

(** C5, as the code has it. A returned result carries as [scale] the value
    the family's estimator produced (the last component of its tuple), with
    no test of its sign: each fitter returns whenever its estimator yields
    a parameter tuple of the right shape. *)
Theorem scale_is_the_estimators (L : NumLib) :
  (forall dist_name x r,
      fit_scipy L dist_name x = Return r ->
      exists d arg loc,
        stats L dist_name = Some d /\
        rv.fit d x None = Return (arg ++ [loc; FitResult.scale r])) /\
  (forall dist_name x d arg loc scale,
      stats L dist_name = Some d ->
      rv.fit d x None = Return (arg ++ [loc; scale]) ->
      exists r, fit_scipy L dist_name x = Return r /\ FitResult.scale r = scale) /\
  (forall x block_size r,
      fit_block_maxima L x block_size = Return r ->
      exists g maxima c loc,
        stats L "genextreme" = Some g /\
        block_maxima x block_size = Return maxima /\
        rv.fit g maxima None = Return [c; loc; FitResult.scale r]) /\
  (forall x block_size g maxima c loc scale,
      stats L "genextreme" = Some g ->
      block_maxima x block_size = Return maxima ->
      rv.fit g maxima None = Return [c; loc; scale] ->
      exists r, fit_block_maxima L x block_size = Return r /\
                FitResult.scale r = scale) /\
  (forall x threshold r,
      fit_gpd_threshold L x threshold = Return r ->
      exists g c loc,
        stats L "genpareto" = Some g /\
        rv.fit g (exceedances x threshold) (Some 0%float)
          = Return [c; loc; FitResult.scale r]) /\
  (forall x threshold g c loc scale,
      stats L "genpareto" = Some g ->
      rv.fit g (exceedances x threshold) (Some 0%float) = Return [c; loc; scale] ->
      exists r, fit_gpd_threshold L x threshold = Return r /\
                FitResult.scale r = scale).
Proof.
  repeat split.
  - intros dist_name x r H.
    apply fit_scipy_Return in H as (d & arg & loc & scale & Hd & Hfit & ->).
    exists d, arg, loc. split; assumption.
  - intros dist_name x d arg loc scale Hd Hfit. eexists. split.
    + apply fit_scipy_Return. exists d, arg, loc, scale.
      split; [exact Hd | split; [exact Hfit | reflexivity]].
    + reflexivity.
  - intros x block_size r H.
    apply fit_block_maxima_Return in H
      as (maxima & g & c & loc & scale & Hmax & Hg & Hfit & ->).
    exists g, maxima, c, loc. repeat split; assumption.
  - intros x block_size g maxima c loc scale Hg Hmax Hfit. eexists. split.
    + apply fit_block_maxima_Return. exists maxima, g, c, loc, scale.
      split; [exact Hmax | split; [exact Hg | split; [exact Hfit | reflexivity]]].
    + reflexivity.
  - intros x threshold r H.
    apply fit_gpd_threshold_Return in H as (g & c & loc & scale & Hg & Hfit & ->).
    exists g, c, loc. split; assumption.
  - intros x threshold g c loc scale Hg Hfit. eexists. split.
    + apply fit_gpd_threshold_Return. exists g, c, loc, scale.
      split; [exact Hg | split; [exact Hfit | reflexivity]].
    + reflexivity.
Qed.

(** On the one-point sample [[1.0]] the closed-form exponential estimate
    has scale [mean - min = 0], and that is the scale of the result. *)
Lemma scale_is_the_estimators_witness :
  exists r, fit_scipy Demo.lib "expon" [1%float] = Return r /\
            FitResult.scale r = 0%float.
Proof.
  destruct (scale_is_the_estimators Demo.lib) as (_ & Hmle & _).
  exact (Hmle "expon"%string [1%float] Demo.expon [] 1%float 0%float
           eq_refl eq_refl).
Defined.

(** C5 as stated fails: a fit is returned as a success with a scale that is
    not positive. *)
Lemma scale_positivity_counterexample :
  exists r, fit_scipy Demo.lib "expon" [1%float] = Return r /\
            (0 <? FitResult.scale r)%float = false.
Proof. eexists. split; [vm_compute; reflexivity | reflexivity]. Qed.

(** C6, as the code has it. In the maximum-likelihood wrapper [loglik] is
    the sum of the log-density at every sample point under the fitted
    parameters, and there is no test for a degenerate fit: whenever the
    estimator yields its tuple the result is returned with that sum,
    whatever its value and whatever the sign of the scale. *)
Theorem loglik_is_summed_logpdf (L : NumLib) :
  (forall dist_name x r,
      fit_scipy L dist_name x = Return r ->
      exists d,
        stats L dist_name = Some d /\
        FitResult.loglik r
          = np_sum L (List.map
                        (fun v => rv.logpdf d v (FitResult.params r)
                                    (FitResult.loc r) (FitResult.scale r))
                        x)) /\
  (forall dist_name x d arg loc scale,
      stats L dist_name = Some d ->
      rv.fit d x None = Return (arg ++ [loc; scale]) ->
      exists r,
        fit_scipy L dist_name x = Return r /\
        FitResult.params r = arg /\
        FitResult.loc r = loc /\
        FitResult.scale r = scale /\
        FitResult.loglik r
          = np_sum L (List.map (fun v => rv.logpdf d v arg loc scale) x)).
Proof.
  split.
  - intros dist_name x r H.
    apply fit_scipy_Return in H as (d & arg & loc & scale & Hd & _ & ->).
    exists d. split; [exact Hd | reflexivity].
  - intros dist_name x d arg loc scale Hd Hfit. eexists. split.
    + apply fit_scipy_Return. exists d, arg, loc, scale.
      split; [exact Hd | split; [exact Hfit | reflexivity]].
    + repeat split.
Qed.

(** On the constant sample [[2.0, 2.0]] the fitted scale is [0] and the sum
    of the log-densities is not a number; the result is returned all the
    same. *)
Lemma loglik_is_summed_logpdf_witness :
  exists r,
    fit_scipy Demo.lib "expon" [2; 2]%float = Return r /\
    FitResult.scale r = 0%float /\
    FitResult.loglik r
      = Demo.sum (List.map (fun v => rv.logpdf Demo.expon v [] 2%float 0%float)
                           [2; 2]%float).
Proof.
  destruct (loglik_is_summed_logpdf Demo.lib) as (_ & Hmle).
  destruct (Hmle "expon"%string [2; 2]%float Demo.expon [] 2%float 0%float
              eq_refl eq_refl) as (r & Hr & _ & _ & Hscale & Hll).
  exists r. repeat split; assumption.
Defined.

(** C6 as stated fails: the fitted scale is [0], an invalid parameter, and
    the call returns a result (with a log-likelihood that is not finite)
    instead of reporting a degenerate fit. *)
Lemma degenerate_fit_counterexample :
  exists r,
    fit_scipy Demo.lib "expon" [2; 2]%float = Return r /\
    (FitResult.scale r <=? 0)%float = true /\
    np_isfinite (FitResult.loglik r) = false.
Proof.
  eexists. split; [vm_compute; reflexivity | split; reflexivity].
Qed.

(** ** Block maxima *)





Lemma comprehension_map {A B C : Type} (f : A -> B) (h : B -> result C) (l : list A) :
  comprehension (fun a => h (f a)) l = comprehension h (List.map f l).
Proof.
  induction l as [| a l IH]; [reflexivity |]. simpl. rewrite IH. reflexivity.
Qed.






(** ** The multi-model runner *)

(** One turn of the loop binds the name to the outcome of its fit. *)
Lemma try_many_step (L : NumLib) (x : list float) (name : string)
    (results : gmap string (result FitResult.t)) :
  match fit_scipy L name x with
  | Return fr => <[name := Return fr]> results
  | Raise e => <[name := Raise e]> results
  end = <[name := fit_scipy L name x]> results.
Proof. destruct (fit_scipy L name x); reflexivity. Qed.

Lemma try_many_loop_lookup (L : NumLib) (x : list float) (dist_names : list string)
    (results : gmap string (result FitResult.t)) (name : string) :
  fold_left
    (fun results name =>
       match fit_scipy L name x with
       | Return fr => <[name := Return fr]> results
       | Raise e => <[name := Raise e]> results
       end)
    dist_names results !! name
  = if in_dec string_dec name dist_names
    then Some (fit_scipy L name x)
    else results !! name.
Proof.
  revert results. induction dist_names as [| a l IH]; intros results.
  - reflexivity.
  - cbn [fold_left]. rewrite IH, try_many_step.
    destruct (in_dec string_dec name l) as [Hl | Hl];
      destruct (in_dec string_dec name (a :: l)) as [Hal | Hal].
    + reflexivity.
    + exfalso. apply Hal. right. exact Hl.
    + destruct Hal as [-> | Hin]; [| contradiction].
      apply lookup_insert_eq.
    + apply lookup_insert_ne. intros ->. apply Hal. left. reflexivity.
Qed.

(** C4. The runner returns a mapping with exactly one entry per requested
    name and none besides: the name is bound to the outcome of its own fit,
    the result when the fit succeeds and the exception it raised when it
    fails, whatever happens to the other names. *)
Theorem try_many_totality (L : NumLib) (x : list float) (dist_names : list string) :
  dom (try_many L x dist_names) = list_to_set dist_names /\
  (forall name, In name dist_names ->
     try_many L x dist_names !! name = Some (fit_scipy L name x)) /\
  (forall name, ~ In name dist_names ->
     try_many L x dist_names !! name = None) /\
  (NoDup dist_names -> size (try_many L x dist_names) = length dist_names).
Proof.
  assert (Hin : forall name, In name dist_names ->
                  try_many L x dist_names !! name = Some (fit_scipy L name x)).
  { intros name H. unfold try_many. rewrite try_many_loop_lookup.
    destruct (in_dec string_dec name dist_names); [reflexivity | contradiction]. }
  assert (Hout : forall name, ~ In name dist_names ->
                   try_many L x dist_names !! name = None).
  { intros name H. unfold try_many. rewrite try_many_loop_lookup.
    destruct (in_dec string_dec name dist_names); [contradiction | reflexivity]. }
  assert (Hdom : dom (try_many L x dist_names) = list_to_set dist_names).
  { apply set_eq. intros name.
    rewrite elem_of_dom, elem_of_list_to_set, list_elem_of_In. split.
    - intros Hsome. destruct (in_dec string_dec name dist_names) as [H | H];
        [exact H |]. rewrite (Hout name H) in Hsome. destruct Hsome; discriminate.
    - intros H. rewrite (Hin name H). eexists. reflexivity. }
  split; [exact Hdom |]. split; [exact Hin |]. split; [exact Hout |].
  intros Hnodup. rewrite <- size_dom, Hdom. apply size_list_to_set. exact Hnodup.
Qed.

(** Three names, the last one unknown: three entries, the last one the
    exception of the failed lookup, the first a result. *)
Lemma try_many_totality_witness :
  size (try_many Demo.lib [1; 2; 4]%float ["expon"; "genpareto"; "bogus_dist"]%string)
  = 3%nat /\
  (exists fr,
     try_many Demo.lib [1; 2; 4]%float ["expon"; "genpareto"; "bogus_dist"]%string
       !! "expon"%string = Some (Return fr)) /\
  try_many Demo.lib [1; 2; 4]%float ["expon"; "genpareto"; "bogus_dist"]%string
    !! "bogus_dist"%string
  = Some (Raise (AttributeError "module 'scipy.stats' has no attribute 'bogus_dist'")).
Proof.
  destruct (try_many_totality Demo.lib [1; 2; 4]%float
              ["expon"; "genpareto"; "bogus_dist"]%string)
    as (_ & Hin & _ & Hsize).
  split; [| split].
  - apply Hsize. apply (bool_decide_unpack _). vm_compute. reflexivity.
  - eexists. etransitivity; [apply Hin; simpl; tauto |]. vm_compute. reflexivity.
  - etransitivity; [apply Hin; simpl; tauto | vm_compute; reflexivity].
Defined.

(** ** Looking a name up *)

Lemma dict_contains_In {Callable : Type} (d : list (string * Callable)) (name : string) :
  dict_contains d name = true <-> In name (dict_keys d).
Proof.
  unfold dict_contains. rewrite existsb_exists. split.
  - intros (k & Hk & Heq). apply String.eqb_eq in Heq. subst k. exact Hk.
  - intros H. exists name. split; [exact H | apply String.eqb_refl].
Qed.


Lemma dict_get_set {Callable : Type} (d : list (string * Callable)) (name : string)
    (fn : Callable) :
  dict_get (dict_set d name fn) name = Some fn /\
  In name (dict_keys (dict_set d name fn)).
Proof.
  induction d as [| [k v] d IH]; simpl.
  - rewrite String.eqb_refl. split; [reflexivity | left; reflexivity].
  - destruct (String.eqb_spec k name) as [-> | Hne]; simpl.
    + rewrite String.eqb_refl. split; [reflexivity | left; reflexivity].
    + destruct (String.eqb_spec k name) as [Heq | _]; [contradiction |].
      destruct IH as (Hget & Hin). split; [exact Hget | right; exact Hin].
Qed.



(** ** The order of binary64 values *)

Lemma SFcompare_antisym (u v : spec_float) :
  SFcompare v u = option_map CompOpp (SFcompare u v).
Proof.
  destruct u as [su | su | | su mu eu], v as [sv | sv | | sv mv ev];
    simpl; try reflexivity;
    try (destruct su; reflexivity); try (destruct sv; reflexivity);
    try (destruct su, sv; reflexivity).
  change (Pos.compare_cont Eq mv mu) with (Pos.compare mv mu).
  change (Pos.compare_cont Eq mu mv) with (Pos.compare mu mv).
  pose proof (Z.compare_antisym eu ev) as HZ.
  pose proof (Pos.compare_antisym mu mv) as HP.
  destruct su, sv; simpl; try reflexivity;
    destruct (eu ?= ev)%Z, (ev ?= eu)%Z; simpl in *;
    try discriminate; try reflexivity;
    destruct (mu ?= mv)%positive, (mv ?= mu)%positive; simpl in *;
    try discriminate; reflexivity.
Qed.

Lemma SFcompare_None (u v : spec_float) :
  SFcompare u v = None -> u = S754_nan \/ v = S754_nan.
Proof.
  destruct u as [su | su | | su mu eu], v as [sv | sv | | sv mv ev];
    simpl; intros H; try discriminate; auto.
Qed.

Lemma is_nan_false (v : float) : is_nan v = false -> Prim2SF v <> S754_nan.
Proof.
  unfold is_nan. rewrite FloatAxioms.eqb_spec. intros H Hnan. rewrite Hnan in H. discriminate H.
Qed.

Lemma isfinite_not_nan (v : float) : np_isfinite v = true -> is_nan v = false.
Proof.
  unfold np_isfinite, is_finite. intros H.
  apply negb_true_iff, orb_false_iff in H. apply H.
Qed.



(** ** [np.sort] *)

Lemma sort_insert_perm (a : float) (l : list float) :
  Permutation (sort_insert a l) (a :: l).
Proof.
  induction l as [| b l IH]; simpl; [reflexivity |].
  destruct (npy_lt a b); [reflexivity |].
  rewrite IH. apply perm_swap.
Qed.

Lemma np_sort_perm (x : list float) : Permutation (np_sort x) x.
Proof.
  induction x as [| a x IH]; simpl; [reflexivity |].
  rewrite sort_insert_perm. constructor. exact IH.
Qed.




(** ** The empirical distribution function *)

Lemma ecdf_ordinates_seq (xs : list float) :
  ecdf_ordinates xs
  = List.map (fun j => (inject_Z (Z.of_nat (S j)) / inject_Z (len xs))%Q)
             (seq 0 (length xs)).
Proof.
  unfold ecdf_ordinates, np_arange1, range, len. rewrite Nat2Z.id.
  rewrite !List.map_map. apply List.map_ext. intros j.
  do 2 f_equal. lia.
Qed.







(** The series itself on that sample. *)
Example ecdf_series_of_three :
  exists fig,
    pdf_ecdf_overlay Demo.lib [3; 1; 2]%float "expon" [] 1%float 1%float None None
    = Return fig /\
    ecdf_series fig = [(1%float, 1 # 3); (2%float, 2 # 3); (3%float, 3 # 3)]%Q.
Proof. eexists. split; vm_compute; reflexivity. Qed.

(** ** Non-finite entries *)

Lemma filter_idempotent {A : Type} (p : A -> bool) (l : list A) :
  List.filter p (List.filter p l) = List.filter p l.
Proof.
  induction l as [| a l IH]; simpl; [reflexivity |].
  destruct (p a) eqn:Hp; simpl; [rewrite Hp, IH |]; auto.
Qed.

(** C10. Both diagnostic producers keep only the finite entries of the
    sample (NaN and the two infinities are not finite) before anything
    else is computed: on any sample they yield exactly what they yield on
    its finite subsequence, and the abscissae of the step series are a
    rearrangement of that subsequence. *)
Theorem non_finite_entries_are_dropped (L : NumLib) (x : list float)
    (dist_name : string) (params : list float) (loc scale : float)
    (path title : option string) :
  np_isfinite nan = false /\
  np_isfinite infinity = false /\
  np_isfinite neg_infinity = false /\
  pdf_ecdf_overlay L x dist_name params loc scale path title
  = pdf_ecdf_overlay L (List.filter np_isfinite x) dist_name params loc scale path title /\
  qq_plot L x dist_name params loc scale path title
  = qq_plot L (List.filter np_isfinite x) dist_name params loc scale path title /\
  (forall fig,
      pdf_ecdf_overlay L x dist_name params loc scale path title = Return fig ->
      exists xs ys,
        ecdf_series fig = combine xs ys /\
        length ys = length xs /\
        Permutation xs (List.filter np_isfinite x)).
Proof.
  split; [reflexivity |]. split; [reflexivity |]. split; [reflexivity |].
  split; [| split].
  - unfold pdf_ecdf_overlay. rewrite filter_idempotent. reflexivity.
  - unfold qq_plot. rewrite filter_idempotent. reflexivity.
  - intros fig H. unfold pdf_ecdf_overlay in H.
    apply bind_Return in H as (lo & _ & H).
    apply bind_Return in H as (hi & _ & H).
    apply bind_Return in H as (dist & _ & H).
    injection H as <-.
    exists (np_sort (List.filter np_isfinite x)),
           (ecdf_ordinates (np_sort (List.filter np_isfinite x))).
    split; [reflexivity |]. split; [| apply np_sort_perm].
    rewrite ecdf_ordinates_seq, length_map, length_seq. reflexivity.
Qed.

(** A sample with a NaN and an infinity in it gives the figure of its three
    finite values. *)
Lemma non_finite_entries_are_dropped_witness :
  pdf_ecdf_overlay Demo.lib [3; nan; 1; infinity; 2]%float "expon" []
    1%float 1%float None None
  = pdf_ecdf_overlay Demo.lib [3; 1; 2]%float "expon" [] 1%float 1%float None None /\
  qq_plot Demo.lib [3; nan; 1; infinity; 2]%float "expon" [] 1%float 1%float None None
  = qq_plot Demo.lib [3; 1; 2]%float "expon" [] 1%float 1%float None None.
Proof.
  destruct (non_finite_entries_are_dropped Demo.lib [3; nan; 1; infinity; 2]%float
              "expon" [] 1%float 1%float None None)
    as (_ & _ & _ & Hoverlay & Hqq & _).
  split.
  - rewrite Hoverlay. reflexivity.
  - rewrite Hqq. reflexivity.
Defined.

(** * Further properties of the code *)

(** ** The registry under registration *)

Lemma dict_keys_set {Callable : Type} (d : list (string * Callable)) (name : string)
    (fn : Callable) :
  dict_keys (dict_set d name fn)
  = if dict_contains d name then dict_keys d else dict_keys d ++ [name].
Proof.
  unfold dict_contains, dict_keys.
  induction d as [| [k v] d IH]; simpl; [reflexivity |].
  rewrite (String.eqb_sym name k).
  destruct (String.eqb_spec k name) as [-> | Hne]; simpl; [reflexivity |].
  rewrite IH. destruct (existsb _ _); reflexivity.
Qed.

Lemma dict_get_set_other {Callable : Type} (d : list (string * Callable))
    (name other : string) (fn : Callable) :
  other <> name -> dict_get (dict_set d name fn) other = dict_get d other.
Proof.
  intros Hne. induction d as [| [k v] d IH]; simpl.
  - destruct (String.eqb_spec name other); [congruence | reflexivity].
  - destruct (String.eqb_spec k name) as [-> | Hk]; simpl.
    + destruct (String.eqb_spec name other); [congruence | reflexivity].
    + rewrite IH. reflexivity.
Qed.

Lemma dict_contains_set {Callable : Type} (d : list (string * Callable))
    (name other : string) (fn : Callable) :
  dict_contains (dict_set d name fn) other
  = dict_contains d other || String.eqb other name.
Proof.
  unfold dict_contains. rewrite dict_keys_set.
  fold (dict_contains d name).
  destruct (dict_contains d name) eqn:Hc.
  - destruct (String.eqb_spec other name) as [-> | Hne].
    + fold (dict_contains d name). rewrite Hc. reflexivity.
    + rewrite orb_false_r. reflexivity.
  - rewrite existsb_app. simpl. rewrite orb_false_r. reflexivity.
Qed.

(** Registering a name leaves every other name as it was: the same item is
    found under it, and the decorator hands the function back unchanged. *)
Theorem register_keeps_other_names (Callable : Type) (repr : list string -> string)
    (self : @Registry Callable) (name other : string) (fn : Callable) :
  other <> name ->
  In other (names self) ->
  get repr (fst (register self name fn)) other = get repr self other /\
  snd (register self name fn) = fn.
Proof.
  intros Hne Hin. split; [| reflexivity].
  unfold get, register, names in *. simpl.
  rewrite dict_contains_set, dict_get_set_other by exact Hne.
  rewrite (proj2 (dict_contains_In _ other) Hin). reflexivity.
Qed.

Lemma register_keeps_other_names_witness :
  get Demo.repr
    (fst (register (fst (register Registry_init "expon" 1%nat)) "gamma" 2%nat)) "expon"
  = Return 1%nat.
Proof.
  destruct (register_keeps_other_names nat Demo.repr
              (fst (register Registry_init "expon" 1%nat)) "gamma" "expon" 2%nat)
    as (H & _).
  - discriminate.
  - left. reflexivity.
  - rewrite H. reflexivity.
Defined.

(** The names of a registry are in insertion order: a new name goes to the
    end, and registering a name again keeps its place. *)
Theorem register_names_order (Callable : Type) (self : @Registry Callable)
    (name : string) (fn : Callable) :
  (In name (names self) -> names (fst (register self name fn)) = names self) /\
  (~ In name (names self) ->
   names (fst (register self name fn)) = names self ++ [name]).
Proof.
  unfold names, register. simpl. rewrite dict_keys_set. split; intros H.
  - rewrite (proj2 (dict_contains_In _ name) H). reflexivity.
  - destruct (dict_contains (_items self) name) eqn:Hc; [| reflexivity].
    apply dict_contains_In in Hc. contradiction.
Qed.

Lemma register_names_order_witness :
  names (fst (register (fst (register (fst (register Registry_init
           "expon" 1%nat)) "gamma" 2%nat)) "expon" 3%nat))
  = ["expon"; "gamma"]%string.
Proof.
  rewrite (proj1 (register_names_order nat
                    (fst (register (fst (register Registry_init "expon" 1%nat))
                                   "gamma" 2%nat))
                    "expon" 3%nat)).
  - reflexivity.
  - left. reflexivity.
Defined.

Lemma registered_snoc {Callable : Type} (calls : list (string * Callable))
    (name : string) (fn : Callable) :
  registered (calls ++ [(name, fn)]) = fst (register (registered calls) name fn).
Proof. unfold registered. rewrite fold_left_app. reflexivity. Qed.

Lemma names_register {Callable : Type} (self : @Registry Callable) (name : string)
    (fn : Callable) :
  names (fst (register self name fn))
  = if dict_contains (_items self) name then names self else names self ++ [name].
Proof. unfold names, register. simpl. apply dict_keys_set. Qed.

Lemma registered_names {Callable : Type} (calls : list (string * Callable)) :
  NoDup (names (registered calls)) /\
  forall name, In name (names (registered calls)) <-> In name (List.map fst calls).
Proof.
  induction calls as [| [name fn] calls IH] using rev_ind.
  - split; [constructor | reflexivity].
  - destruct IH as (Hnodup & Hnames). rewrite registered_snoc, names_register.
    destruct (dict_contains (_items (registered calls)) name) eqn:Hc.
    + apply dict_contains_In in Hc. fold (names (registered calls)) in Hc.
      split; [exact Hnodup |]. intros other.
      rewrite List.map_app, in_app_iff, Hnames. simpl. split; [tauto |].
      intros [H | [<- | []]]; [exact H | apply Hnames; exact Hc].
    + assert (Hout : ~ In name (names (registered calls))).
      { intros Hin. apply (dict_contains_In (_items (registered calls))) in Hin.
        congruence. }
      split.
      * apply NoDup_app. split; [exact Hnodup |]. split.
        -- intros other Hother Hsingle. apply list_elem_of_In in Hother, Hsingle.
           destruct Hsingle as [<- | []]. contradiction.
        -- repeat constructor. intros H. apply list_elem_of_In in H. destruct H.
      * intros other. rewrite List.map_app, !in_app_iff, Hnames. reflexivity.
Qed.

Lemma registered_lookup_last {Callable : Type} (before after : list (string * Callable))
    (name : string) (fn : Callable) :
  ~ In name (List.map fst after) ->
  dict_get (_items (registered (before ++ (name, fn) :: after))) name = Some fn.
Proof.
  induction after as [| [other fn'] after IH] using rev_ind; intros Hout.
  - rewrite registered_snoc. unfold register. simpl. apply dict_get_set.
  - rewrite List.map_app, in_app_iff in Hout. simpl in Hout.
    change (before ++ (name, fn) :: after ++ [(other, fn')])
      with (before ++ ((name, fn) :: after) ++ [(other, fn')]).
    rewrite app_assoc, registered_snoc. unfold register. simpl.
    rewrite dict_get_set_other by (intros ->; tauto).
    apply IH. tauto.
Qed.

(** A registry filled by [register] calls alone never lists a name twice,
    lists exactly the names registered, and finds under a name the function
    of the last call that registered it. *)
Theorem registered_last_call_wins (Callable : Type) (repr : list string -> string)
    (calls : list (string * Callable)) :
  NoDup (names (registered calls)) /\
  (forall name, In name (names (registered calls)) <-> In name (List.map fst calls)) /\
  (forall before after name fn,
      calls = before ++ (name, fn) :: after ->
      ~ In name (List.map fst after) ->
      get repr (registered calls) name = Return fn).
Proof.
  destruct (registered_names calls) as (Hnodup & Hnames).
  split; [exact Hnodup |]. split; [exact Hnames |].
  intros before after name fn Hcalls Hout. unfold get.
  assert (Hin : In name (names (registered calls))).
  { apply Hnames. rewrite Hcalls, List.map_app, in_app_iff. right. left. reflexivity. }
  rewrite (proj2 (dict_contains_In _ name) Hin). simpl.
  rewrite Hcalls, (registered_lookup_last before after name fn Hout). reflexivity.
Qed.

Lemma registered_last_call_wins_witness :
  get Demo.repr
    (registered [("expon", 1%nat); ("gamma", 2%nat); ("expon", 3%nat)]%string) "expon"
  = Return 3%nat.
Proof.
  destruct (registered_last_call_wins nat Demo.repr
              [("expon", 1%nat); ("gamma", 2%nat); ("expon", 3%nat)]%string)
    as (_ & _ & Hlast).
  apply (Hlast [("expon", 1%nat); ("gamma", 2%nat)]%string []).
  - reflexivity.
  - intros [].
Defined.

(** ** How a fit fails *)

Lemma unpack_star_Raise (params : list float) (e : exception) :
  unpack_star params = Raise e <->
  (length params < 2)%nat /\
  e = ValueError "not enough values to unpack (expected at least 2)".
Proof.
  unfold unpack_star. rewrite <- (length_rev params).
  destruct (rev params) as [| s [| l rarg]]; simpl; split.
  - intros H. injection H as <-. split; [lia | reflexivity].
  - intros (_ & ->). reflexivity.
  - intros H. injection H as <-. split; [lia | reflexivity].
  - intros (_ & ->). reflexivity.
  - discriminate.
  - intros (H & _). lia.
Qed.

(** The maximum-likelihood wrapper fails in exactly three ways: the name is
    not bound (an [AttributeError] quoting it), the estimator raises (the
    same exception comes out), or the estimator yields fewer than two
    values (a [ValueError] from the unpacking). It raises nothing else. *)
Theorem fit_scipy_failures (L : NumLib) (dist_name : string) (x : list float)
    (e : exception) :
  fit_scipy L dist_name x = Raise e <->
  (stats L dist_name = None /\
   e = AttributeError
         ("module 'scipy.stats' has no attribute '" ++ dist_name ++ "'")%string) \/
  (exists d, stats L dist_name = Some d /\ rv.fit d x None = Raise e) \/
  (exists d params,
      stats L dist_name = Some d /\
      rv.fit d x None = Return params /\
      (length params < 2)%nat /\
      e = ValueError "not enough values to unpack (expected at least 2)").
Proof.
  unfold fit_scipy, ScipyDistribution_init, ScipyDistribution_fit, stats_getattr.
  destruct (stats L dist_name) as [d |]; simpl.
  - destruct (rv.fit d x None) as [params | e'] eqn:Hfit; simpl.
    + destruct (unpack_star params) as [[[arg loc] scale] | e'] eqn:Hun; simpl.
      * split; [discriminate |].
        intros [(H & _) | [(d' & H & H') | (d' & params' & H & H' & Hlen & _)]];
          [discriminate H | |]; injection H as <-; rewrite Hfit in H';
          [discriminate H' |].
        injection H' as <-.
        apply unpack_star_Return in Hun. subst params.
        rewrite length_app in Hlen. simpl in Hlen. lia.
      * apply unpack_star_Raise in Hun as (Hlen & ->). split.
        -- intros H. injection H as <-. right. right. exists d, params. tauto.
        -- intros [(H & _) | [(d' & H & H') | (d' & params' & _ & _ & _ & ->)]];
             [discriminate H | | reflexivity].
           injection H as <-. rewrite Hfit in H'. discriminate H'.
    + split.
      * intros H. injection H as <-. right. left. exists d. tauto.
      * intros [(H & _) | [(d' & H & H') | (d' & params' & H & H' & _)]];
          [discriminate H | |]; injection H as <-; rewrite Hfit in H';
          [injection H' as <-; reflexivity | discriminate H'].
  - split.
    + intros H. injection H as <-. left. tauto.
    + intros [(_ & ->) | [(d' & H & _) | (d' & params' & H & _)]];
        [reflexivity | discriminate H | discriminate H].
Qed.

(** An estimator that refuses its data: its exception is the one the
    caller sees. *)
Lemma fit_scipy_failures_witness :
  fit_scipy Demo.lib "expon" []
  = Raise (ValueError
             "zero-size array to reduction operation minimum which has no identity").
Proof.
  apply (fit_scipy_failures Demo.lib "expon" []). right. left.
  exists Demo.expon. split; reflexivity.
Defined.

(** ** More on the order of binary64 values *)

Lemma SFcompare_refl (u : spec_float) :
  u <> S754_nan -> SFcompare u u = Some Eq.
Proof.
  destruct u as [s | s | | s m e]; simpl; intros H;
    try reflexivity; try congruence.
  - destruct s; reflexivity.
  - rewrite Z.compare_refl.
    change (Pos.compare_cont Eq m m) with (Pos.compare m m).
    rewrite Pos.compare_refl. destruct s; reflexivity.
Qed.

Lemma is_nan_true (v : float) : is_nan v = true -> Prim2SF v = S754_nan.
Proof.
  unfold is_nan. rewrite FloatAxioms.eqb_spec. unfold SFeqb. intros H.
  destruct (Prim2SF v) as [s | s | | s m e] eqn:Hv; [| | reflexivity |];
    rewrite SFcompare_refl in H by discriminate; discriminate H.
Qed.

Lemma ltb_nan_right (a b : float) : is_nan b = true -> (a <? b)%float = false.
Proof.
  intros Hb. rewrite FloatAxioms.ltb_spec, (is_nan_true b Hb). unfold SFltb.
  destruct (Prim2SF a); reflexivity.
Qed.

Lemma ltb_nan_left (a b : float) : is_nan a = true -> (a <? b)%float = false.
Proof.
  intros Ha. rewrite FloatAxioms.ltb_spec, (is_nan_true a Ha). reflexivity.
Qed.

Lemma SFleb_trans (u v w : spec_float) :
  SFleb u v = true -> SFleb v w = true -> SFleb u w = true.
Proof.
  unfold SFleb.
  destruct u as [su | su | | su mu eu], v as [sv | sv | | sv mv ev],
           w as [sw | sw | | sw mw ew]; simpl;
    try discriminate; try reflexivity;
    try (destruct su; simpl; try discriminate; try reflexivity;
         destruct sv; simpl; try discriminate; try reflexivity;
         destruct sw; simpl; try discriminate; reflexivity);
    try (destruct su, sv, sw; simpl; intros; try discriminate; try reflexivity; fail).
  all: change (Pos.compare_cont Eq mu mv) with (Pos.compare mu mv);
       change (Pos.compare_cont Eq mv mw) with (Pos.compare mv mw);
       change (Pos.compare_cont Eq mu mw) with (Pos.compare mu mw).
  all: destruct su, sv, sw; simpl; try discriminate; try reflexivity.
  all: destruct (Z.compare_spec eu ev), (Z.compare_spec ev ew), (Z.compare_spec eu ew);
       simpl; try discriminate; try reflexivity; try lia.
  all: subst;
       destruct (Pos.compare_spec mu mv), (Pos.compare_spec mv mw),
                (Pos.compare_spec mu mw);
       simpl; try discriminate; try reflexivity; try lia.
Qed.

Lemma float_leb_trans (a b c : float) :
  (a <=? b)%float = true -> (b <=? c)%float = true -> (a <=? c)%float = true.
Proof. rewrite !FloatAxioms.leb_spec. apply SFleb_trans. Qed.

Lemma float_leb_refl (a : float) : is_nan a = false -> (a <=? a)%float = true.
Proof.
  intros Ha. apply is_nan_false in Ha.
  rewrite FloatAxioms.leb_spec. unfold SFleb. rewrite SFcompare_refl by exact Ha.
  reflexivity.
Qed.

Lemma float_leb_false (a b : float) :
  is_nan a = false -> is_nan b = false ->
  (a <=? b)%float = false -> (b <=? a)%float = true.
Proof.
  intros Ha Hb. apply is_nan_false in Ha, Hb.
  rewrite !FloatAxioms.leb_spec. unfold SFleb.
  rewrite (SFcompare_antisym (Prim2SF a) (Prim2SF b)).
  destruct (SFcompare (Prim2SF a) (Prim2SF b)) as [[] |] eqn:Hc; simpl;
    try congruence.
  apply SFcompare_None in Hc. tauto.
Qed.

(** ** The reductions [max] and [min] *)

Lemma fold_maximum_bounds (l : list float) (acc : float) :
  is_nan acc = false -> no_nan l ->
  let m := fold_left np_maximum l acc in
  is_nan m = false /\ In m (acc :: l) /\
  (acc <=? m)%float = true /\
  List.Forall (fun v => (v <=? m)%float = true) l.
Proof.
  revert acc. induction l as [| v l IH]; intros acc Hacc Hl; simpl.
  - split; [exact Hacc |]. split; [left; reflexivity |].
    split; [apply float_leb_refl; exact Hacc | constructor].
  - apply List.Forall_cons_iff in Hl as (Hv & Hl).
    assert (Hstep : is_nan (np_maximum acc v) = false /\
                    (np_maximum acc v = acc \/ np_maximum acc v = v) /\
                    (acc <=? np_maximum acc v)%float = true /\
                    (v <=? np_maximum acc v)%float = true).
    { unfold np_maximum. rewrite Hacc, orb_false_r.
      destruct (v <=? acc)%float eqn:Hle.
      - split; [exact Hacc |]. split; [left; reflexivity |].
        split; [apply float_leb_refl; exact Hacc | exact Hle].
      - split; [exact Hv |]. split; [right; reflexivity |].
        split; [apply float_leb_false; assumption | apply float_leb_refl; exact Hv]. }
    destruct Hstep as (Hnan & Hwhich & Hacc_le & Hv_le).
    destruct (IH (np_maximum acc v) Hnan Hl) as (Hm & Hin & Hle & Hall).
    split; [exact Hm |]. split; [| split].
    + destruct Hin as [Hin | Hin]; [| right; right; exact Hin].
      rewrite <- Hin. destruct Hwhich as [-> | ->]; [left | right; left]; reflexivity.
    + apply (float_leb_trans _ _ _ Hacc_le Hle).
    + constructor; [apply (float_leb_trans _ _ _ Hv_le Hle) | exact Hall].
Qed.

Lemma fold_minimum_bounds (l : list float) (acc : float) :
  is_nan acc = false -> no_nan l ->
  let m := fold_left np_minimum l acc in
  is_nan m = false /\ In m (acc :: l) /\
  (m <=? acc)%float = true /\
  List.Forall (fun v => (m <=? v)%float = true) l.
Proof.
  revert acc. induction l as [| v l IH]; intros acc Hacc Hl; simpl.
  - split; [exact Hacc |]. split; [left; reflexivity |].
    split; [apply float_leb_refl; exact Hacc | constructor].
  - apply List.Forall_cons_iff in Hl as (Hv & Hl).
    assert (Hstep : is_nan (np_minimum acc v) = false /\
                    (np_minimum acc v = acc \/ np_minimum acc v = v) /\
                    (np_minimum acc v <=? acc)%float = true /\
                    (np_minimum acc v <=? v)%float = true).
    { unfold np_minimum. rewrite Hacc, orb_false_r.
      destruct (acc <=? v)%float eqn:Hle.
      - split; [exact Hacc |]. split; [left; reflexivity |].
        split; [apply float_leb_refl; exact Hacc | exact Hle].
      - split; [exact Hv |]. split; [right; reflexivity |].
        split; [apply float_leb_false; assumption | apply float_leb_refl; exact Hv]. }
    destruct Hstep as (Hnan & Hwhich & Hacc_le & Hv_le).
    destruct (IH (np_minimum acc v) Hnan Hl) as (Hm & Hin & Hle & Hall).
    split; [exact Hm |]. split; [| split].
    + destruct Hin as [Hin | Hin]; [| right; right; exact Hin].
      rewrite <- Hin. destruct Hwhich as [-> | ->]; [left | right; left]; reflexivity.
    + apply (float_leb_trans _ _ _ Hle Hacc_le).
    + constructor; [apply (float_leb_trans _ _ _ Hle Hv_le) | exact Hall].
Qed.

Lemma ndarray_max_bounds (b : list float) (m : float) :
  no_nan b -> ndarray_max b = Return m ->
  In m b /\ List.Forall (fun v => (v <=? m)%float = true) b.
Proof.
  destruct b as [| a l]; [discriminate |]. intros Hb H. injection H as <-.
  apply List.Forall_cons_iff in Hb as (Ha & Hl).
  destruct (fold_maximum_bounds l a Ha Hl) as (_ & Hin & Hle & Hall).
  split; [exact Hin | constructor; assumption].
Qed.

Lemma ndarray_min_bounds (b : list float) (m : float) :
  no_nan b -> ndarray_min b = Return m ->
  In m b /\ List.Forall (fun v => (m <=? v)%float = true) b.
Proof.
  destruct b as [| a l]; [discriminate |]. intros Hb H. injection H as <-.
  apply List.Forall_cons_iff in Hb as (Ha & Hl).
  destruct (fold_minimum_bounds l a Ha Hl) as (_ & Hin & Hle & Hall).
  split; [exact Hin | constructor; assumption].
Qed.

(** ** Block maxima at the edges *)

Lemma block_maxima_no_blocks (x : list float) (block_size : Z) :
  block_size <> 0 ->
  int_ceil_div (len x) block_size <= 0 ->
  block_maxima x block_size = Return [].
Proof.
  intros Hb Hblocks. unfold block_maxima.
  destruct (Z.eqb_spec block_size 0); [contradiction |].
  unfold range. replace (Z.to_nat (int_ceil_div (len x) block_size)) with 0%nat by lia.
  reflexivity.
Qed.

Lemma int_ceil_div_negative (a b : Z) : 0 <= a -> b < 0 -> int_ceil_div a b <= 0.
Proof.
  intros Ha Hb. unfold int_ceil_div.
  replace b with (- - b) by lia. rewrite Z.div_opp_opp by lia.
  pose proof (Z.div_pos a (- b) Ha ltac:(lia)). lia.
Qed.

(** A block size of zero is a division by zero, whatever the sample; a
    negative block size, or an empty sample, yields no block at all, so the
    estimator is handed an empty array and a result, if one comes back, has
    [n = 0]. *)
Theorem block_maxima_degenerate_sizes (L : NumLib) (x : list float) (block_size : Z) :
  (block_size = 0 ->
   block_maxima x block_size = Raise (ZeroDivisionError "division by zero") /\
   fit_block_maxima L x block_size = Raise (ZeroDivisionError "division by zero")) /\
  (block_size < 0 \/ (x = [] /\ block_size <> 0) ->
   block_maxima x block_size = Return [] /\
   forall r, fit_block_maxima L x block_size = Return r -> FitResult.n r = 0).
Proof.
  split.
  - intros ->. split; reflexivity.
  - intros Hcase.
    assert (Hnone : block_maxima x block_size = Return []).
    { destruct Hcase as [Hneg | (-> & Hnz)].
      - apply block_maxima_no_blocks; [lia |].
        apply int_ceil_div_negative; [unfold len; lia | exact Hneg].
      - apply block_maxima_no_blocks; [exact Hnz |]. reflexivity. }
    split; [exact Hnone |]. intros r Hr.
    apply fit_block_maxima_Return in Hr
      as (maxima & g & c & loc & scale & Hmax & _ & _ & ->).
    rewrite Hnone in Hmax. injection Hmax as <-. reflexivity.
Qed.

Lemma block_maxima_degenerate_sizes_witness :
  fit_block_maxima Demo.lib (Demo.one_to 100) 0
  = Raise (ZeroDivisionError "division by zero") /\
  block_maxima (Demo.one_to 100) (-10) = Return [].
Proof.
  destruct (block_maxima_degenerate_sizes Demo.lib (Demo.one_to 100) 0) as (Hzero & _).
  destruct (block_maxima_degenerate_sizes Demo.lib (Demo.one_to 100) (-10))
    as (_ & Hneg).
  split.
  - apply Hzero. reflexivity.
  - apply Hneg. left. lia.
Defined.



(** ** Block maxima are maxima *)

Lemma comprehension_Return_inv {A B : Type} (h : A -> result B) (l : list A)
    (bs : list B) :
  comprehension h l = Return bs -> Forall2 (fun a b => h a = Return b) l bs.
Proof.
  revert bs. induction l as [| a l IH]; intros bs H; simpl in H.
  - injection H as <-. constructor.
  - apply bind_Return in H as (b & Hb & H).
    apply bind_Return in H as (bs' & Hbs & H). injection H as <-.
    constructor; [exact Hb | apply IH; exact Hbs].
Qed.

Lemma block_incl (x : list float) (block_size i : Z) (v : float) :
  In v (block x block_size i) -> In v x.
Proof.
  unfold block, slice. intros H.
  rewrite <- (firstn_skipn (Z.to_nat (i * block_size)) x). apply in_or_app. right.
  rewrite <- (firstn_skipn (Z.to_nat ((i + 1) * block_size - i * block_size))
                (skipn (Z.to_nat (i * block_size)) x)).
  apply in_or_app. left. exact H.
Qed.

(** On a sample without NaN each value the block-maxima fitter hands to the
    estimator is an element of its block and no element of the block is
    greater; in particular every maximum is a sample value. *)
Theorem block_maxima_are_maxima (x : list float) (block_size : Z)
    (maxima : list float) :
  no_nan x ->
  block_maxima x block_size = Return maxima ->
  Forall2 (fun b m => In m b /\ List.Forall (fun v => (v <=? m)%float = true) b)
          (List.map (block x block_size) (range (int_ceil_div (len x) block_size)))
          maxima /\
  List.Forall (fun m => In m x) maxima.
Proof.
  intros Hnan H. unfold block_maxima in H.
  destruct (block_size =? 0); [discriminate |].
  rewrite (comprehension_map (block x block_size) ndarray_max) in H.
  apply comprehension_Return_inv in H.
  set (indices := range (int_ceil_div (len x) block_size)) in *.
  clearbody indices. revert maxima H.
  induction indices as [| i indices IH]; intros maxima H; simpl in *.
  - inversion H. split; constructor.
  - inversion H as [| b m bs ms Hm Hrest]; subst.
    destruct (IH ms Hrest) as (Hblocks & Hin).
    assert (Hb : no_nan (block x block_size i)).
    { apply List.Forall_forall. intros v Hv. apply block_incl in Hv.
      revert v Hv. apply List.Forall_forall. exact Hnan. }
    destruct (ndarray_max_bounds _ m Hb Hm) as (Hmem & Hle).
    split; constructor; try assumption.
    + split; assumption.
    + apply (block_incl x block_size i). exact Hmem.
Qed.

Lemma block_maxima_are_maxima_witness :
  List.Forall (fun m => In m [3; 1; 2; 5; 4]%float) [3; 5; 4]%float.
Proof.
  apply (block_maxima_are_maxima [3; 1; 2; 5; 4]%float 2 [3; 5; 4]%float).
  - repeat constructor.
  - reflexivity.
Defined.

(** ** NaN and the threshold *)

Lemma filter_filter_implied {A : Type} (p q : A -> bool) (l : list A) :
  (forall a, p a = true -> q a = true) ->
  List.filter p (List.filter q l) = List.filter p l.
Proof.
  intros Himp. induction l as [| a l IH]; simpl; [reflexivity |].
  destruct (q a) eqn:Hq; simpl.
  - rewrite IH. reflexivity.
  - destruct (p a) eqn:Hp; [| exact IH].
    rewrite (Himp a Hp) in Hq. discriminate Hq.
Qed.

(** A NaN in the sample is never an exceedance, so dropping the NaN entries
    first changes nothing; and under a NaN threshold nothing is an
    exceedance: the fitter then behaves as on the empty sample. *)
Theorem nan_is_never_an_exceedance (L : NumLib) (x : list float) (threshold : float) :
  exceedances (List.filter (fun v => negb (is_nan v)) x) threshold
  = exceedances x threshold /\
  count_above x threshold <= len (List.filter (fun v => negb (is_nan v)) x) /\
  (is_nan threshold = true ->
   exceedances x threshold = [] /\
   fit_gpd_threshold L x threshold = fit_gpd_threshold L [] threshold).
Proof.
  assert (Hdrop : List.filter (fun v => (threshold <? v)%float)
                    (List.filter (fun v => negb (is_nan v)) x)
                  = List.filter (fun v => (threshold <? v)%float) x).
  { apply filter_filter_implied. intros v Hv.
    destruct (is_nan v) eqn:Hnan; [| reflexivity].
    rewrite (ltb_nan_right threshold v Hnan) in Hv. discriminate Hv. }
  split; [unfold exceedances; rewrite Hdrop; reflexivity |]. split.
  - unfold count_above, len. rewrite <- Hdrop.
    apply inj_le. apply filter_length_le.
  - intros Hnan.
    assert (Hempty : exceedances x threshold = []).
    { apply exceedances_empty. intros v _. apply ltb_nan_left. exact Hnan. }
    split; [exact Hempty |]. unfold fit_gpd_threshold. rewrite Hempty. reflexivity.
Qed.

Lemma nan_is_never_an_exceedance_witness :
  exceedances [1; nan; 5]%float 2%float = [3%float] /\
  exceedances [1; 5]%float nan = [].
Proof.
  destruct (nan_is_never_an_exceedance Demo.lib [1; nan; 5]%float 2%float)
    as (Hdrop & _).
  destruct (nan_is_never_an_exceedance Demo.lib [1; 5]%float nan) as (_ & _ & Hnan).
  split.
  - rewrite <- Hdrop. reflexivity.
  - apply Hnan. reflexivity.
Defined.

(** ** The runner and the order of the names *)

(** What the runner returns depends on the set of names only: neither their
    order nor a repetition changes the mapping. *)
Theorem try_many_order_irrelevant (L : NumLib) (x : list float)
    (dist_names dist_names' : list string) :
  (forall name, In name dist_names <-> In name dist_names') ->
  try_many L x dist_names = try_many L x dist_names'.
Proof.
  intros Hsame. apply map_eq. intros name. unfold try_many.
  rewrite !try_many_loop_lookup.
  destruct (in_dec string_dec name dist_names) as [H | H];
    destruct (in_dec string_dec name dist_names') as [H' | H'];
    try reflexivity; exfalso; apply Hsame in H || apply Hsame in H'; contradiction.
Qed.

Lemma try_many_order_irrelevant_witness :
  try_many Demo.lib [1; 2; 4]%float ["expon"; "bogus_dist"; "expon"]%string
  = try_many Demo.lib [1; 2; 4]%float ["bogus_dist"; "expon"]%string.
Proof.
  apply try_many_order_irrelevant. intros name. simpl. tauto.
Defined.

(** A name the namespace does not bind never stops the runner: it is
    recorded under that name as the [AttributeError] of the failed
    lookup. *)
Theorem try_many_records_unknown_name (L : NumLib) (x : list float)
    (dist_names : list string) (name : string) :
  In name dist_names ->
  stats L name = None ->
  try_many L x dist_names !! name
  = Some (Raise (AttributeError
                   ("module 'scipy.stats' has no attribute '" ++ name ++ "'")%string)).
Proof.
  intros Hin Hnone. unfold try_many. rewrite try_many_loop_lookup.
  destruct (in_dec string_dec name dist_names); [| contradiction].
  unfold fit_scipy, ScipyDistribution_init, stats_getattr. rewrite Hnone. reflexivity.
Qed.

Lemma try_many_records_unknown_name_witness :
  try_many Demo.lib [1; 2; 4]%float default_dist_names !! "weibull_min"%string
  = Some (Raise (AttributeError "module 'scipy.stats' has no attribute 'weibull_min'")).
Proof.
  apply (try_many_records_unknown_name Demo.lib [1; 2; 4]%float).
  - right. left. reflexivity.
  - reflexivity.
Defined.

(** ** What the plotting functions do with a sample *)

Lemma filter_isfinite_no_nan (x : list float) : no_nan (List.filter np_isfinite x).
Proof.
  apply List.Forall_forall. intros v Hv. apply filter_In in Hv as (_ & Hv).
  apply isfinite_not_nan. exact Hv.
Qed.

Lemma cumsum_from_length (l : list float) (acc : float) :
  length (cumsum_from acc l) = length l.
Proof.
  revert acc. induction l as [| a l IH]; intros acc; simpl; [reflexivity |].
  rewrite IH. reflexivity.
Qed.

Lemma np_cumsum_length (x : list float) : length (np_cumsum x) = length x.
Proof. destruct x; simpl; [reflexivity | rewrite cumsum_from_length; reflexivity]. Qed.

Lemma truthy_None (s : option string) :
  truthy s = None <-> s = None \/ s = Some ""%string.
Proof.
  destruct s as [[| c s] |]; simpl; split; intros H; try tauto; try discriminate.
  destruct H as [H | H]; discriminate H.
Qed.

Lemma pdf_ecdf_overlay_empty_sample (L : NumLib) (x : list float) (dist_name : string)
    (params : list float) (loc scale : float) (path title : option string) :
  (List.filter np_isfinite x = [] ->
   pdf_ecdf_overlay L x dist_name params loc scale path title
   = Raise (ValueError
              "zero-size array to reduction operation minimum which has no identity")) /\
  (pdf_ecdf_overlay L x dist_name params loc scale path title
   = Raise (ValueError
              "zero-size array to reduction operation minimum which has no identity") ->
   stats L dist_name <> None ->
   List.filter np_isfinite x = []).
Proof.
  unfold pdf_ecdf_overlay, stats_getattr.
  destruct (List.filter np_isfinite x) as [| a l]; cbn [ndarray_min ndarray_max bind].
  - split; reflexivity.
  - split; [discriminate |]. intros H Hname.
    destruct (stats L dist_name); [discriminate H | congruence].
Qed.

Lemma overlay_returns (L : NumLib) (x : list float) (dist_name : string)
    (params : list float) (loc scale : float) (path title : option string) :
  List.filter np_isfinite x <> [] ->
  stats L dist_name <> None ->
  exists fig, pdf_ecdf_overlay L x dist_name params loc scale path title = Return fig.
Proof.
  unfold pdf_ecdf_overlay, stats_getattr. intros Hx Hname.
  destruct (List.filter np_isfinite x) as [| a l]; [congruence |].
  cbn [ndarray_min ndarray_max bind].
  destruct (stats L dist_name); [| congruence]. eexists. reflexivity.
Qed.






(** A returned overlay holds two artists: the step series, and a curve over
    the 400-point grid between the least and the greatest finite sample
    value, with one ordinate per grid point. An empty path saves nothing,
    as no path does. *)
Theorem overlay_grid_spans_the_sample (L : NumLib) (x : list float)
    (dist_name : string) (params : list float) (loc scale : float)
    (path title : option string) (fig : Figure) :
  pdf_ecdf_overlay L x dist_name params loc scale path title = Return fig ->
  exists lo hi xs ys curve label,
    artists fig = [Step xs ys "ECDF"; Line (np_linspace L lo hi 400) curve label "-"] /\
    length curve = length (np_linspace L lo hi 400) /\
    In lo x /\ In hi x /\
    (forall v, In v x -> np_isfinite v = true ->
               (lo <=? v)%float = true /\ (v <=? hi)%float = true) /\
    (savefig fig = None <-> path = None \/ path = Some ""%string).
Proof.
  intros H. unfold pdf_ecdf_overlay in H.
  apply bind_Return in H as (lo & Hlo & H).
  apply bind_Return in H as (hi & Hhi & H).
  apply bind_Return in H as (d & _ & H). injection H as <-.
  pose proof (filter_isfinite_no_nan x) as Hnan.
  destruct (ndarray_min_bounds _ lo Hnan Hlo) as (Hlo_in & Hlo_le).
  destruct (ndarray_max_bounds _ hi Hnan Hhi) as (Hhi_in & Hhi_le).
  do 6 eexists. split; [reflexivity |]. split; [| split; [| split; [| split]]].
  - rewrite !length_map, np_cumsum_length, length_map. reflexivity.
  - apply filter_In in Hlo_in. apply Hlo_in.
  - apply filter_In in Hhi_in. apply Hhi_in.
  - intros v Hv Hfin.
    assert (Hin : In v (List.filter np_isfinite x)) by (apply filter_In; tauto).
    split.
    + apply (proj1 (List.Forall_forall _ _) Hlo_le v Hin).
    + apply (proj1 (List.Forall_forall _ _) Hhi_le v Hin).
  - simpl. apply truthy_None.
Qed.

Lemma overlay_grid_spans_the_sample_witness :
  exists fig curve label,
    pdf_ecdf_overlay Demo.lib [3; nan; 1; 2]%float "expon" [] 1%float 1%float
      (Some ""%string) None = Return fig /\
    nth 1 (artists fig) (Scatter [] [] 0)
    = Line (Demo.linspace 1 3 400) curve label "-" /\
    savefig fig = None.
Proof.
  assert (Hrun : exists fig,
             pdf_ecdf_overlay Demo.lib [3; nan; 1; 2]%float "expon" [] 1%float 1%float
               (Some ""%string) None = Return fig)
    by (apply overlay_returns; discriminate).
  destruct Hrun as (fig & Hfig).
  destruct (overlay_grid_spans_the_sample Demo.lib _ _ _ _ _ _ _ fig Hfig)
    as (lo & hi & xs & ys & curve & label & Hart & _ & Hlo & Hhi & Hbounds & Hsave).
  exists fig, curve, label. split; [exact Hfig |].
  assert (Hone : np_isfinite 1%float = true) by reflexivity.
  assert (Hthree : np_isfinite 3%float = true) by reflexivity.
  assert (Hends : lo = 1%float /\ hi = 3%float).
  { simpl in Hlo, Hhi.
    destruct (Hbounds 1%float ltac:(simpl; tauto) Hone) as (Hlo1 & _).
    destruct (Hbounds 3%float ltac:(simpl; tauto) Hthree) as (_ & Hhi3).
    split.
    - destruct Hlo as [<- | [<- | [<- | [<- | []]]]];
        try reflexivity; discriminate Hlo1.
    - destruct Hhi as [<- | [<- | [<- | [<- | []]]]];
        try reflexivity; discriminate Hhi3. }
  destruct Hends as (-> & ->). rewrite Hart. split; [reflexivity |].
  apply Hsave. right. reflexivity.
Defined.



(** ** [fit_demo.py]: fit, then plot *)

Lemma os_path_join_nonempty (a b : string) :
  b <> ""%string -> os_path_join a b <> ""%string.
Proof.
  intros Hb. unfold os_path_join. destruct a as [| c a]; [exact Hb |].
  destruct (String.eqb _ _); simpl; discriminate.
Qed.

Lemma truthy_nonempty (s : string) : s <> ""%string -> truthy (Some s) = Some s.
Proof. destruct s; [congruence | reflexivity]. Qed.

Lemma append_nonempty (a b : string) : b <> ""%string -> (a ++ b)%string <> ""%string.
Proof. destruct a; simpl; [tauto | discriminate]. Qed.

Lemma overlay_Return_fields (L : NumLib) (x : list float) (dist_name : string)
    (params : list float) (loc scale : float) (path caption : option string)
    (fig : Figure) :
  pdf_ecdf_overlay L x dist_name params loc scale path caption = Return fig ->
  List.filter np_isfinite x <> [] /\
  savefig fig = truthy path /\ title fig = truthy caption.
Proof.
  intros H. unfold pdf_ecdf_overlay in H.
  apply bind_Return in H as (lo & Hlo & H).
  apply bind_Return in H as (hi & _ & H).
  apply bind_Return in H as (d & _ & H). injection H as <-.
  split; [| split; reflexivity].
  intros Hnil. rewrite Hnil in Hlo. discriminate Hlo.
Qed.

Lemma qq_Return_fields (L : NumLib) (x : list float) (dist_name : string)
    (params : list float) (loc scale : float) (path caption : option string)
    (fig : Figure) :
  qq_plot L x dist_name params loc scale path caption = Return fig ->
  savefig fig = truthy path /\ title fig = truthy caption.
Proof.
  intros H. unfold qq_plot in H.
  apply bind_Return in H as (d & _ & H).
  apply bind_Return in H as (samp & _ & H).
  apply bind_Return in H as (a & _ & H).
  apply bind_Return in H as (b & _ & H).
  apply bind_Return in H as (c' & _ & H).
  apply bind_Return in H as (d' & _ & H). injection H as <-.
  split; reflexivity.
Qed.

(** The command-line demo fits first and plots second: an exception of the
    fit ends it before any figure; after a fit that returned, a sample with
    no finite value ends it with the [ValueError] of the overlay; and when it
    returns, the sample had a finite value and both figures were saved
    under the output directory with their titles. *)
Theorem fit_demo_main_outcome (L : NumLib) (x : list float) (dist outdir : string) :
  (forall e, fit_scipy L dist x = Raise e ->
             fit_demo_main L x dist outdir = Raise e) /\
  (forall fr, fit_scipy L dist x = Return fr ->
              List.filter np_isfinite x = [] ->
              fit_demo_main L x dist outdir
              = Raise (ValueError
                  "zero-size array to reduction operation minimum which has no identity")) /\
  (forall fr overlay qq,
      fit_demo_main L x dist outdir = Return (fr, overlay, qq) ->
      fit_scipy L dist x = Return fr /\
      List.filter np_isfinite x <> [] /\
      savefig overlay = Some (os_path_join outdir "cdf_overlay.png") /\
      savefig qq = Some (os_path_join outdir "qq.png") /\
      title overlay = Some (dist ++ " CDF vs ECDF")%string /\
      title qq = Some (dist ++ " QQ plot")%string).
Proof.
  unfold fit_demo_main. split; [| split].
  - intros e ->. reflexivity.
  - intros fr -> Hnone. cbn [bind].
    rewrite (proj1 (pdf_ecdf_overlay_empty_sample L x dist (FitResult.params fr)
                      (FitResult.loc fr) (FitResult.scale fr) _ _) Hnone).
    reflexivity.
  - intros fr overlay qq H.
    apply bind_Return in H as (fr' & Hfit & H).
    apply bind_Return in H as (o & Ho & H).
    apply bind_Return in H as (q & Hq & H). injection H as -> -> ->.
    apply overlay_Return_fields in Ho as (Hx & Hsave & Htitle).
    apply qq_Return_fields in Hq as (Hsave' & Htitle').
    rewrite truthy_nonempty in Hsave, Hsave', Htitle, Htitle'
      by (first [apply os_path_join_nonempty | apply append_nonempty]; discriminate).
    repeat split; assumption.
Qed.

Lemma fit_demo_main_outcome_witness :
  exists fr overlay qq,
    fit_demo_main Demo.lib [3; 1; 2]%float "expon" "outputs" = Return (fr, overlay, qq) /\
    savefig overlay = Some "outputs/cdf_overlay.png"%string /\
    savefig qq = Some "outputs/qq.png"%string.
Proof.
  assert (Hrun : exists out,
             fit_demo_main Demo.lib [3; 1; 2]%float "expon" "outputs" = Return out)
    by (eexists; vm_compute; reflexivity).
  destruct Hrun as ([[fr overlay] qq] & Hrun).
  destruct (fit_demo_main_outcome Demo.lib [3; 1; 2]%float "expon" "outputs")
    as (_ & _ & Hreturned).
  destruct (Hreturned fr overlay qq Hrun) as (_ & _ & Hsave & Hsave' & _).
  exists fr, overlay, qq. split; [exact Hrun |]. split; assumption.
Defined.

(** ** [exp/run.py]: the threshold and the run *)

(** In peaks-over-threshold mode the configured threshold is a quantile
    level only when it lies strictly between 0 and 1; at 0, at 1, outside,
    or when it is a NaN, it is the threshold itself. An exception of the
    quantile computation ends the step. *)
Theorem threshold_policy (L : NumLib) (c : cfg.t) (x : list float) :
  cfg.enabled (cfg.extreme c) = true ->
  cfg.mode (cfg.extreme c) = "peaks_over_threshold"%string ->
  let thr := cfg.threshold (cfg.extreme c) in
  ((0 <? thr)%float && (thr <? 1)%float = false ->
   run_extreme L c x
   = let* fr_ev := fit_gpd_threshold L x thr in Return (Some fr_ev)) /\
  (is_nan thr = true \/ thr = 0%float \/ thr = 1%float ->
   (0 <? thr)%float && (thr <? 1)%float = false) /\
  ((0 <? thr)%float && (thr <? 1)%float = true ->
   (forall level, np_quantile L x [thr] = Return [level] ->
      run_extreme L c x
      = let* fr_ev := fit_gpd_threshold L x level in Return (Some fr_ev)) /\
   (forall e, np_quantile L x [thr] = Raise e -> run_extreme L c x = Raise e)).
Proof.
  intros Henabled Hmode thr. unfold run_extreme, resolve_threshold, quantile_scalar.
  rewrite Henabled, Hmode. cbn [String.eqb Ascii.eqb Bool.eqb]. fold thr.
  split; [| split].
  - intros ->. reflexivity.
  - intros [Hnan | [-> | ->]]; [| reflexivity | reflexivity].
    rewrite (ltb_nan_right 0%float thr Hnan). reflexivity.
  - intros ->. split.
    + intros level ->. reflexivity.
    + intros e ->. reflexivity.
Qed.

(** The sample [1, ..., 100] with the threshold [0.5]: the level resolves
    to the median [50.5] and fifty values exceed it. *)
Lemma threshold_policy_witness :
  exists fr_ev,
    run_extreme DemoRun.lib
      {| cfg.fit := {| cfg.mle := false; cfg.dist := "expon" |};
         cfg.extreme := {| cfg.enabled := true; cfg.mode := "peaks_over_threshold";
                           cfg.block_size := 30; cfg.threshold := 0.5 |};
         cfg.viz := {| cfg.cdf_overlay := false; cfg.qq := false |} |}
      (Demo.one_to 100)
    = Return (Some fr_ev) /\
    FitResult.n fr_ev = 50.
Proof.
  destruct (threshold_policy DemoRun.lib
      {| cfg.fit := {| cfg.mle := false; cfg.dist := "expon" |};
         cfg.extreme := {| cfg.enabled := true; cfg.mode := "peaks_over_threshold";
                           cfg.block_size := 30; cfg.threshold := 0.5 |};
         cfg.viz := {| cfg.cdf_overlay := false; cfg.qq := false |} |}
      (Demo.one_to 100) eq_refl eq_refl) as (_ & _ & Hlevel).
  destruct (Hlevel eq_refl) as (Hquantile & _).
  rewrite (Hquantile 50.5%float) by (vm_compute; reflexivity).
  eexists. split; [vm_compute; reflexivity | reflexivity].
Defined.

Lemma run_extreme_keys (L : NumLib) (c : cfg.t) (x : list float)
    (extreme : option FitResult.t) :
  run_extreme L c x = Return extreme ->
  (extreme <> None ->
   cfg.enabled (cfg.extreme c) = true /\
   (cfg.mode (cfg.extreme c) = "block_maxima"%string \/
    cfg.mode (cfg.extreme c) = "peaks_over_threshold"%string)) /\
  (cfg.enabled (cfg.extreme c) = false -> extreme = None).
Proof.
  unfold run_extreme. destruct (cfg.enabled (cfg.extreme c)).
  - destruct (String.eqb_spec (cfg.mode (cfg.extreme c)) "block_maxima") as [Hbm | _].
    + intros _. split; [tauto | discriminate].
    + destruct (String.eqb_spec (cfg.mode (cfg.extreme c)) "peaks_over_threshold")
        as [Hpot | _].
      * intros _. split; [tauto | discriminate].
      * intros H. injection H as <-. split; [congruence | discriminate].
  - intros H. injection H as <-. split; [congruence | reflexivity].
Qed.

(** What a run that returns leaves behind: [results] holds at most the keys
    [mle] and [extreme]; [mle] is there exactly when the fit was asked for,
    and is that fit; [extreme] is there only for an enabled step in one of
    the two known modes (any other mode name is passed over in silence);
    no figure is made unless the fit was asked for, whatever the plotting
    switches say; and the summary has the fields of each result. *)
Theorem run_main_outcome (L : NumLib) (c : cfg.t) (x : list float) (outdir : string)
    (o : run_outcome) :
  run_main L c x outdir = Return o ->
  (forall key, is_Some (results o !! key) ->
               key = "mle"%string \/ key = "extreme"%string) /\
  (if cfg.mle (cfg.fit c)
   then exists fr, fit_scipy L (cfg.dist (cfg.fit c)) x = Return fr /\
                   results o !! "mle"%string = Some fr
   else results o !! "mle"%string = None /\ figures o = []) /\
  (is_Some (results o !! "extreme"%string) ->
   cfg.enabled (cfg.extreme c) = true /\
   (cfg.mode (cfg.extreme c) = "block_maxima"%string \/
    cfg.mode (cfg.extreme c) = "peaks_over_threshold"%string)) /\
  length (figures o)
  = ((if cfg.mle (cfg.fit c) && cfg.cdf_overlay (cfg.viz c) then 1 else 0)
     + (if cfg.mle (cfg.fit c) && cfg.qq (cfg.viz c) then 1 else 0))%nat /\
  (forall key, summary o !! key = FitResult_dict <$> results o !! key).
Proof.
  intros H. unfold run_main in H.
  apply bind_Return in H as (res1 & Hres1 & H).
  apply bind_Return in H as (extreme & Hext & H).
  set (res2 := match extreme with
               | Some fr_ev => <["extreme"%string := fr_ev]> res1
               | None => res1
               end) in *.
  apply bind_Return in H as (figs1 & Hfigs1 & H).
  apply bind_Return in H as (figs2 & Hfigs2 & H). injection H as <-. simpl.
  destruct (run_extreme_keys L c x extreme Hext) as (Hknown & _).
  assert (Hmle2 : res2 !! "mle"%string = res1 !! "mle"%string).
  { unfold res2. destruct extreme; [apply lookup_insert_ne; discriminate | reflexivity]. }
  assert (Hext2 : is_Some (res2 !! "extreme"%string) -> extreme <> None \/
                  is_Some (res1 !! "extreme"%string)).
  { unfold res2. destruct extreme; [left; discriminate | right; assumption]. }
  assert (Hsummary : forall key,
             (_clean <$> res2) !! key = FitResult_dict <$> res2 !! key).
  { intros key. rewrite lookup_fmap. destruct (res2 !! key); reflexivity. }
  destruct (cfg.mle (cfg.fit c)) eqn:Hmle.
  - apply bind_Return in Hres1 as (fr & Hfit & Hres1). injection Hres1 as <-.
    rewrite Hmle2, lookup_insert_eq in Hfigs1, Hfigs2.
    split; [| split; [| split; [| split]]].
    + intros key Hkey. unfold res2 in Hkey.
      destruct (decide (key = "extreme"%string)) as [-> | Hne]; [tauto |].
      destruct (decide (key = "mle"%string)) as [-> | Hne']; [tauto |].
      destruct extreme; rewrite ?lookup_insert_ne, lookup_empty in Hkey by congruence;
        destruct Hkey; discriminate.
    + exists fr. split; [exact Hfit |]. rewrite Hmle2. apply lookup_insert_eq.
    + intros Hsome. apply Hext2 in Hsome as [Hsome | Hsome]; [tauto |].
      rewrite lookup_insert_ne, lookup_empty in Hsome by discriminate.
      destruct Hsome; discriminate.
    + rewrite length_app. cbn [andb]. f_equal.
      * destruct (cfg.cdf_overlay (cfg.viz c)).
        -- apply bind_Return in Hfigs1 as (fig & _ & Hfigs1). injection Hfigs1 as <-.
           reflexivity.
        -- injection Hfigs1 as <-. reflexivity.
      * destruct (cfg.qq (cfg.viz c)).
        -- apply bind_Return in Hfigs2 as (fig & _ & Hfigs2). injection Hfigs2 as <-.
           reflexivity.
        -- injection Hfigs2 as <-. reflexivity.
    + exact Hsummary.
  - injection Hres1 as <-. rewrite Hmle2, lookup_empty in Hfigs1, Hfigs2.
    assert (Hno1 : figs1 = []) by (destruct (cfg.cdf_overlay (cfg.viz c));
                                   injection Hfigs1 as <-; reflexivity).
    assert (Hno2 : figs2 = []) by (destruct (cfg.qq (cfg.viz c));
                                   injection Hfigs2 as <-; reflexivity).
    subst figs1 figs2.
    split; [| split; [| split; [| split]]].
    + intros key Hkey. unfold res2 in Hkey.
      destruct (decide (key = "extreme"%string)) as [-> | Hne]; [tauto |].
      destruct extreme; rewrite ?lookup_insert_ne, lookup_empty in Hkey by congruence;
        destruct Hkey; discriminate.
    + split; [rewrite Hmle2; apply lookup_empty | reflexivity].
    + intros Hsome. apply Hext2 in Hsome as [Hsome | Hsome]; [tauto |].
      rewrite lookup_empty in Hsome. destruct Hsome; discriminate.
    + reflexivity.
    + exact Hsummary.
Qed.

Lemma run_main_outcome_witness :
  exists o,
    run_main DemoRun.lib
      {| cfg.fit := {| cfg.mle := true; cfg.dist := "expon" |};
         cfg.extreme := {| cfg.enabled := true; cfg.mode := "block-maxima";
                           cfg.block_size := 10; cfg.threshold := 0.75 |};
         cfg.viz := {| cfg.cdf_overlay := true; cfg.qq := true |} |}
      [3; 1; 2]%float "run"
    = Return o /\
    results o !! "extreme"%string = None /\
    length (figures o) = 2%nat.
Proof.
  assert (Hrun : exists o,
    run_main DemoRun.lib
      {| cfg.fit := {| cfg.mle := true; cfg.dist := "expon" |};
         cfg.extreme := {| cfg.enabled := true; cfg.mode := "block-maxima";
                           cfg.block_size := 10; cfg.threshold := 0.75 |};
         cfg.viz := {| cfg.cdf_overlay := true; cfg.qq := true |} |}
      [3; 1; 2]%float "run"
    = Return o) by (eexists; vm_compute; reflexivity).
  destruct Hrun as (o & Hrun).
  destruct (run_main_outcome _ _ _ _ o Hrun) as (_ & _ & Hext & Hfigs & _).
  exists o. split; [exact Hrun |]. split; [| exact Hfigs].
  destruct (results o !! "extreme"%string) eqn:Hlook; [| reflexivity].
  destruct (Hext ltac:(eexists; reflexivity)) as (_ & [Hmode | Hmode]);
    discriminate Hmode.
Defined.

(** The run has no handler around its fits: an exception of the first fit,
    or of the extreme-value step after it, ends the run with that very
    exception and nothing returned. *)
Theorem run_main_stops_at_failure (L : NumLib) (c : cfg.t) (x : list float)
    (outdir : string) (e : exception) :
  (cfg.mle (cfg.fit c) = true ->
   fit_scipy L (cfg.dist (cfg.fit c)) x = Raise e ->
   run_main L c x outdir = Raise e) /\
  (cfg.mle (cfg.fit c) = false \/
   (exists fr, fit_scipy L (cfg.dist (cfg.fit c)) x = Return fr) ->
   run_extreme L c x = Raise e ->
   run_main L c x outdir = Raise e).
Proof.
  unfold run_main. split.
  - intros -> ->. reflexivity.
  - intros [-> | (fr & Hfit)] Hext.
    + cbn [bind]. rewrite Hext. reflexivity.
    + destruct (cfg.mle (cfg.fit c)); [rewrite Hfit |]; cbn [bind];
        rewrite Hext; reflexivity.
Qed.

Lemma run_main_stops_at_failure_witness :
  run_main DemoRun.lib
    {| cfg.fit := {| cfg.mle := true; cfg.dist := "gpd" |};
       cfg.extreme := {| cfg.enabled := false; cfg.mode := "block_maxima";
                         cfg.block_size := 30; cfg.threshold := 0.75 |};
       cfg.viz := {| cfg.cdf_overlay := true; cfg.qq := true |} |}
    [3; 1; 2]%float "run"
  = Raise (AttributeError "module 'scipy.stats' has no attribute 'gpd'").
Proof.
  apply (proj1 (run_main_stops_at_failure DemoRun.lib _ _ _ _)); reflexivity.
Defined.

(** ** The summary *)

(** The cleaning of a summary entry drops exactly the keys that end with an
    underscore and keeps the rest in order, so cleaning twice changes
    nothing more; a result record has no such key and keeps all its eight
    fields. *)
Theorem clean_drops_trailing_underscore (V : Type) (d : list (string * V))
    (fr : FitResult.t) :
  (forall k v, In (k, v) (clean_dict d) <->
               In (k, v) d /\ endswith_underscore k = false) /\
  clean_dict (clean_dict d) = clean_dict d /\
  (forall before k v after,
      d = before ++ (k, v) :: after ->
      clean_dict d
      = clean_dict before
        ++ (if endswith_underscore k then [] else [(k, v)])
        ++ clean_dict after) /\
  _clean fr = FitResult_dict fr.
Proof.
  split; [| split; [| split]].
  - intros k v. unfold clean_dict. rewrite filter_In. simpl.
    rewrite negb_true_iff. reflexivity.
  - apply filter_idempotent.
  - intros before k v after ->. unfold clean_dict.
    rewrite List.filter_app. simpl.
    destruct (endswith_underscore k); reflexivity.
  - reflexivity.
Qed.

Lemma clean_drops_trailing_underscore_witness :
  clean_dict [("name", 1%nat); ("params_", 2%nat); ("loc_", 3%nat); ("n", 4%nat)]%string
  = [("name", 1%nat); ("n", 4%nat)]%string.
Proof.
  destruct (clean_drops_trailing_underscore nat
              [("name", 1%nat); ("params_", 2%nat); ("loc_", 3%nat); ("n", 4%nat)]%string
              (FitResult.mk "" [] 0 0 0 0 0 0)) as (_ & _ & Hsplit & _).
  rewrite (Hsplit [("name", 1%nat)]%string "params_"%string 2%nat
             [("loc_", 3%nat); ("n", 4%nat)]%string eq_refl).
  reflexivity.
Defined.

(** ** The survival adapter *)

Lemma parametric_fits_lookup {Fitted : Type}
    (lifelines_fit : string -> list float -> list float -> option string -> result Fitted)
    (df : DataFrame) (time_col event_col : string) (family : string * string) :
  In family parametric_families ->
  parametric_fits lifelines_fit df time_col event_col !! fst family
  = Some (parametric_attempt lifelines_fit df time_col event_col family).
Proof.
  unfold parametric_fits, parametric_families. cbn [fold_left fst].
  intros [<- | [<- | [<- | []]]]; cbn [fst];
    repeat match goal with
           | |- context [match ?attempt with Return _ => _ | Raise _ => _ end] =>
               destruct attempt
           end;
    repeat (rewrite lookup_insert_ne by discriminate);
    rewrite lookup_insert_eq; reflexivity.
Qed.

(** The parametric survival fits always come back as three entries,
    [Weibull], [LogNormal] and [LogLogistic], each the outcome of its own
    attempt: the fitted model, or the exception the attempt raised. *)
Theorem parametric_fits_three_entries (Fitted : Type)
    (lifelines_fit : string -> list float -> list float -> option string -> result Fitted)
    (df : DataFrame) (time_col event_col : string) :
  dom (parametric_fits lifelines_fit df time_col event_col)
  = {[ "Weibull"; "LogNormal"; "LogLogistic" ]}%string /\
  size (parametric_fits lifelines_fit df time_col event_col) = 3%nat /\
  (forall family,
      In family parametric_families ->
      parametric_fits lifelines_fit df time_col event_col !! fst family
      = Some (parametric_attempt lifelines_fit df time_col event_col family)).
Proof.
  assert (Hdom : dom (parametric_fits lifelines_fit df time_col event_col)
                 = {[ "Weibull"; "LogNormal"; "LogLogistic" ]}%string).
  { unfold parametric_fits, parametric_families. cbn [fold_left fst].
    repeat match goal with
           | |- context [match ?attempt with Return _ => _ | Raise _ => _ end] =>
               destruct attempt
           end;
      rewrite !dom_insert_L, dom_empty_L; set_solver. }
  split; [exact Hdom |]. split.
  - rewrite <- size_dom, Hdom. vm_compute. reflexivity.
  - apply parametric_fits_lookup.
Qed.

(** A missing duration column: the Kaplan-Meier curve raises the
    [KeyError] of the column access, and the three parametric attempts
    each record that same [KeyError], no fitter having been called. *)
Theorem missing_column_is_a_key_error (Fitted : Type)
    (lifelines_fit : string -> list float -> list float -> option string -> result Fitted)
    (df : DataFrame) (time_col event_col : string) :
  ~ In time_col (dict_keys df) ->
  km_curve lifelines_fit df time_col event_col = Raise (KeyError time_col) /\
  forall family,
    In family parametric_families ->
    parametric_fits lifelines_fit df time_col event_col !! fst family
    = Some (Raise (KeyError time_col)).
Proof.
  intros Hmissing.
  assert (Hget : df_getitem df time_col = Raise (KeyError time_col)).
  { unfold df_getitem. destruct (dict_get df time_col) as [column |] eqn:Hcol;
      [| reflexivity].
    exfalso. apply Hmissing. clear Hmissing.
    induction df as [| [k v] df IH]; simpl in *; [discriminate |].
    destruct (String.eqb_spec k time_col); [left; assumption | right; auto]. }
  split.
  - unfold km_curve. rewrite Hget. reflexivity.
  - intros family Hfamily. rewrite parametric_fits_lookup by exact Hfamily.
    unfold parametric_attempt. rewrite Hget. reflexivity.
Qed.

Lemma missing_column_is_a_key_error_witness :
  km_curve (fun _ durations _ _ => Return (length durations))
    [("time", [1; 2]%float); ("event", [1; 0]%float)]%string "duration" "event"
  = Raise (KeyError "duration").
Proof.
  apply (missing_column_is_a_key_error nat).
  simpl. intros [H | [H | []]]; discriminate H.
Defined.

Lemma parametric_fits_three_entries_witness :
  parametric_fits
    (fun cls durations _ _ =>
       if String.eqb cls "WeibullFitter" then Raise (ValueError "did not converge")
       else Return (length durations))
    [("time", [1; 2]%float); ("event", [1; 0]%float)]%string "time" "event"
    !! "Weibull"%string
  = Some (Raise (ValueError "did not converge")) /\
  size (parametric_fits
          (fun cls durations _ _ =>
             if String.eqb cls "WeibullFitter" then Raise (ValueError "did not converge")
             else Return (length durations))
          [("time", [1; 2]%float); ("event", [1; 0]%float)]%string "time" "event")
  = 3%nat.
Proof.
  destruct (parametric_fits_three_entries nat
              (fun cls durations _ _ =>
                 if String.eqb cls "WeibullFitter"
                 then Raise (ValueError "did not converge")
                 else Return (length durations))
              [("time", [1; 2]%float); ("event", [1; 0]%float)]%string "time" "event")
    as (_ & Hsize & Hlookup).
  split; [| exact Hsize].
  apply (Hlookup ("Weibull", "WeibullFitter")%string). left. reflexivity.
Defined.
